(** * Orchestrator-AI: mission engine, rate limiter and key failover

    A shallow embedding of the orchestration core of the application:
    - [types.ts] / [constants.ts]: the data model and the default prompts;
    - [services/geminiService.ts]: the key pool, the failover loop
      [generateContentWithFallback] and the four agent functions;
    - [App.tsx]: [checkRateLimit], the cooldown timer, [processNextStep]
      and the session handlers;
    - [services/storageService.ts]: the history of saved sessions.

    Conventions of the embedding.
    - JavaScript numbers that hold token counts, indices and millisecond
      timestamps are integers ([Z]); the one division of the program
      (the budget percentage) is taken in [Q].
    - React state: [setState] applies its updater to the committed state,
      while [stateRef.current] lags behind until the component re-renders,
      which happens while an asynchronous call is awaited.
    - [Date.now()] and [Math.random()] are read from the environment, one
      reading per call, in program order.
    - The remote model ([ai.models.generateContent]) and [JSON.parse] are
      functions of the environment.
    - [processNextStep] is given whole, as a step that has ended before
      anything else happens, and in two parts ([step_begin],
      [step_resume]) for the histories in which steps overlap. *)

From Stdlib Require Import ZArith QArith Lia Bool Ascii String DecimalString.
From stdpp Require Import base option list strings gmap.

#[local] Open Scope string_scope.
#[local] Open Scope Z_scope.

(** ** JavaScript strings *)

Module Js.

Definition nl : string := String (ascii_of_nat 10) EmptyString.
Definition dquote : string := String (ascii_of_nat 34) EmptyString.

(** [String(n)] / template interpolation of an integral number. *)
Definition show_Z (z : Z) : string := NilZero.string_of_int (Z.to_int z).

Definition show_nat (n : nat) : string := show_Z (Z.of_nat n).

(** [s.includes(needle)]. *)
Fixpoint includes (needle s : string) : bool :=
  String.prefix needle s ||
  match s with
  | EmptyString => false
  | String _ rest => includes needle rest
  end.

Definition lower_ascii (c : ascii) : ascii :=
  let n := nat_of_ascii c in
  if (Nat.leb 65 n && Nat.leb n 90)%bool then ascii_of_nat (n + 32) else c.

(** [s.toLowerCase()] on the ASCII range. *)
Fixpoint toLowerCase (s : string) : string :=
  match s with
  | EmptyString => EmptyString
  | String c rest => String (lower_ascii c) (toLowerCase rest)
  end.

(** [xs.join(sep)]. *)
Fixpoint join (sep : string) (xs : list string) : string :=
  match xs with
  | [] => ""
  | [x] => x
  | x :: rest => x ++ sep ++ join sep rest
  end.

(** [s.split(",")]: always at least one piece. *)
Fixpoint split_comma (s : string) : list string :=
  match s with
  | EmptyString => [""]
  | String c rest =>
      if Ascii.eqb c "," then "" :: split_comma rest
      else match split_comma rest with
           | [] => [String c ""]
           | p :: ps => String c p :: ps
           end
  end.

Definition is_space (c : ascii) : bool :=
  let n := nat_of_ascii c in
  (Nat.eqb n 32 || (Nat.leb 9 n && Nat.leb n 13))%bool.

Fixpoint trimStart (s : string) : string :=
  match s with
  | EmptyString => EmptyString
  | String c rest => if is_space c then trimStart rest else s
  end.

Fixpoint trimEnd (s : string) : string :=
  match s with
  | EmptyString => EmptyString
  | String c rest =>
      match trimEnd rest with
      | EmptyString => if is_space c then EmptyString else String c EmptyString
      | r => String c r
      end
  end.

(** [s.trim()] on ASCII white space. *)
Definition trim (s : string) : string := trimEnd (trimStart s).

(** Truthiness of a string: [Boolean(s)]. *)
Definition truthy (s : string) : bool :=
  match s with EmptyString => false | _ => true end.

(** [a || b] on possibly-undefined strings. *)
Definition or_else (a : option string) (b : string) : string :=
  match a with
  | Some s => if truthy s then s else b
  | None => b
  end.

(** Interpolation [`${x}`] of a possibly-undefined string. *)
Definition interp (a : option string) : string := default "undefined" a.

(** [n || 0] on a possibly-undefined number. *)
Definition num_or_zero (a : option Z) : Z := default 0 a.

End Js.

(** ** Data model ([types.ts]) *)

Inductive AgentRole :=
  SUPERVISOR | RESEARCHER | ANALYST | WRITER | EDITOR | CODER.

(** The string value of each member of the enum. *)
Definition role_name (r : AgentRole) : string :=
  match r with
  | SUPERVISOR => "Supervisor"
  | RESEARCHER => "Researcher"
  | ANALYST => "Analyst"
  | WRITER => "Writer"
  | EDITOR => "Editor"
  | CODER => "Coder"
  end.

Definition all_roles : list AgentRole :=
  [SUPERVISOR; RESEARCHER; ANALYST; WRITER; EDITOR; CODER].

(** [Record<AgentRole, string>] as the object it is at run time: a finite
    map from the enum's string values. *)
Abbreviation AgentPrompts := (gmap string string).

Inductive TaskStatus := t_pending | t_in_progress | t_completed | t_failed.

Record Task := mkTask {
  task_id : string;
  title : string;
  description : string;
  assignedAgent : AgentRole;
  task_status : TaskStatus;
  result : option string;
  usage : option Z
}.

Inductive LogType := log_plan | log_action | log_result | log_error | log_info.

Record LogEntry := mkLog {
  log_id : string;
  timestamp : Z;
  agent : AgentRole;
  message : string;
  log_type : LogType;
  metadata : option (list string)   (* [{ sources }] when given *)
}.

Inductive PeriodUnit := seconds | minutes | hours.

Record RateLimitConfig := mkConfig {
  maxTokens : Z;
  periodValue : Z;
  periodUnit : PeriodUnit;
  autoResumeMinutes : Z
}.

Inductive Status :=
  idle | planning | working | cooldown | completed | error | paused | auto_paused.

Record AppState := mkState {
  status : Status;
  tasks : list Task;
  logs : list LogEntry;
  currentTaskIndex : nat;
  tokenUsage : Z;
  windowStartTime : Z;
  nextAllowedQueryTime : Z;
  finalOutput : option string;
  agentPrompts : AgentPrompts
}.

#[global] Instance Status_eq_dec : EqDecision Status.
Proof. solve_decision. Defined.

#[global] Instance TaskStatus_eq_dec : EqDecision TaskStatus.
Proof. solve_decision. Defined.

#[global] Instance LogType_eq_dec : EqDecision LogType.
Proof. solve_decision. Defined.

#[global] Instance AgentRole_eq_dec : EqDecision AgentRole.
Proof. solve_decision. Defined.

(** Functional record updates, one per field the program writes. *)
Definition set_status (v : Status) (s : AppState) : AppState :=
  mkState v (tasks s) (logs s) (currentTaskIndex s) (tokenUsage s)
    (windowStartTime s) (nextAllowedQueryTime s) (finalOutput s) (agentPrompts s).
Definition set_tasks (v : list Task) (s : AppState) : AppState :=
  mkState (status s) v (logs s) (currentTaskIndex s) (tokenUsage s)
    (windowStartTime s) (nextAllowedQueryTime s) (finalOutput s) (agentPrompts s).
Definition set_logs (v : list LogEntry) (s : AppState) : AppState :=
  mkState (status s) (tasks s) v (currentTaskIndex s) (tokenUsage s)
    (windowStartTime s) (nextAllowedQueryTime s) (finalOutput s) (agentPrompts s).
Definition set_currentTaskIndex (v : nat) (s : AppState) : AppState :=
  mkState (status s) (tasks s) (logs s) v (tokenUsage s)
    (windowStartTime s) (nextAllowedQueryTime s) (finalOutput s) (agentPrompts s).
Definition set_tokenUsage (v : Z) (s : AppState) : AppState :=
  mkState (status s) (tasks s) (logs s) (currentTaskIndex s) v
    (windowStartTime s) (nextAllowedQueryTime s) (finalOutput s) (agentPrompts s).
Definition set_windowStartTime (v : Z) (s : AppState) : AppState :=
  mkState (status s) (tasks s) (logs s) (currentTaskIndex s) (tokenUsage s)
    v (nextAllowedQueryTime s) (finalOutput s) (agentPrompts s).
Definition set_nextAllowedQueryTime (v : Z) (s : AppState) : AppState :=
  mkState (status s) (tasks s) (logs s) (currentTaskIndex s) (tokenUsage s)
    (windowStartTime s) v (finalOutput s) (agentPrompts s).
Definition set_finalOutput (v : option string) (s : AppState) : AppState :=
  mkState (status s) (tasks s) (logs s) (currentTaskIndex s) (tokenUsage s)
    (windowStartTime s) (nextAllowedQueryTime s) v (agentPrompts s).
Definition set_agentPrompts (v : AgentPrompts) (s : AppState) : AppState :=
  mkState (status s) (tasks s) (logs s) (currentTaskIndex s) (tokenUsage s)
    (windowStartTime s) (nextAllowedQueryTime s) (finalOutput s) v.

Definition set_task_status (v : TaskStatus) (t : Task) : Task :=
  mkTask (task_id t) (title t) (description t) (assignedAgent t) v (result t) (usage t).

(** ** The remote model and its failures *)

(** A thrown JavaScript value, as far as the program inspects it:
    [name], [status], [code], [message] and its [JSON.stringify]. *)
Record JsError := mkError {
  err_name : string;
  err_status : option Z;
  err_code : option Z;
  err_message : option string;
  err_json : string
}.

(** [new Error(msg)]. *)
Definition new_Error (msg : string) : JsError :=
  mkError "Error" None None (Some msg) "{}".

(** [String(error)], i.e. [Error.prototype.toString]. *)
Definition error_toString (e : JsError) : string :=
  let msg := default "" (err_message e) in
  if negb (Js.truthy (err_name e)) then msg
  else if negb (Js.truthy msg) then err_name e
  else err_name e ++ ": " ++ msg.

Record Candidate := mkCandidate {
  finishReason : option string;
  groundingChunks : option (list (option string))   (* [chunk.web?.uri] *)
}.

Record Response := mkResponse {
  text : option string;
  candidates : option (list Candidate);
  totalTokenCount : option Z          (* [usageMetadata?.totalTokenCount] *)
}.

Inductive GenConfig :=
| cfg_none
| cfg_plan_schema      (* JSON array, [assignedAgent] from the enum, thinking 4096 *)
| cfg_replan_schema    (* JSON array, thinking 2048 *)
| cfg_tools (googleSearch : bool).

Record Params := mkParams {
  model : string;
  contents : string;
  gen_config : GenConfig     (* the [config] member of the request *)
}.

Inductive Attempt :=
| Responded (r : Response)
| Failed (e : JsError).

(** Result of a call that may throw. *)
Inductive Outcome (A : Type) :=
| Return (a : A)
| Throw (e : JsError).
Arguments Return {A} a.
Arguments Throw {A} e.

(** ** API configuration ([geminiService.ts], module level) *)

Record KeyEnv := mkKeyEnv {
  VITE_GEMINI_API_KEY : option string;
  VITE_GEMINI_API_KEYS : option string;
  VITE_GEMINI_API_KEY_ROLE : AgentRole -> option string
}.

Definition parseKeyList (raw : option string) : list string :=
  match raw with
  | Some r => filter (fun k => Js.truthy k = true) (map Js.trim (Js.split_comma r))
  | None => []
  end.

Definition roleScopedKeys (ke : KeyEnv) (r : AgentRole) : option string :=
  VITE_GEMINI_API_KEY_ROLE ke r.

Definition sharedKeys (ke : KeyEnv) : list string :=
  filter (fun k => Js.truthy k = true)
    (default "" (VITE_GEMINI_API_KEY ke) :: parseKeyList (VITE_GEMINI_API_KEYS ke)).

Definition API_KEYS (ke : KeyEnv) (r : AgentRole) : string :=
  Js.or_else (roleScopedKeys ke r) (Js.or_else (head (sharedKeys ke)) "").

(** [Array.from(new Set(xs))]: first occurrences, in insertion order. *)
Fixpoint set_from {A} `{EqDecision A} (seen xs : list A) : list A :=
  match xs with
  | [] => []
  | x :: rest =>
      if decide (x ∈ seen) then set_from seen rest
      else x :: set_from (x :: seen) rest
  end.

(** [Object.values(API_KEYS)]: the order of the object literal. *)
Definition API_KEYS_values (ke : KeyEnv) : list string :=
  map (API_KEYS ke) [SUPERVISOR; CODER; WRITER; RESEARCHER; ANALYST; EDITOR].

Definition keyPool (ke : KeyEnv) : list string :=
  set_from [] (filter (fun k => Js.truthy k = true) (API_KEYS_values ke ++ sharedKeys ke)%list).

(** The module throws while loading when [keyPool.length === 0]. *)
Definition module_loads (ke : KeyEnv) : bool :=
  negb (Nat.eqb (length (keyPool ke)) 0).

(** ** The failover loop ([generateContentWithFallback]) *)

Definition blocked_reason (r : Response) : option string :=
  if negb (Js.truthy (default "" (text r))) then
    match candidates r with
    | Some (candidate :: _) =>
        match finishReason candidate with
        | Some fr =>
            if (String.eqb fr "SAFETY" || String.eqb fr "RECITATION")%bool
            then Some fr else None
        | None => None
        end
    | _ => None
    end
  else None.

(** The body of the [try]: one call with one key, then the safety check. *)
Definition try_key (remote : string -> Params -> Attempt)
    (apiKey : string) (params : Params) : Outcome Response :=
  match remote apiKey params with
  | Failed e => Throw e
  | Responded response =>
      match blocked_reason response with
      | Some fr => Throw (new_Error ("Content generation blocked: " ++ fr))
      | None => Return response
      end
  end.

Definition truthy_num (o : option Z) : option Z :=
  match o with
  | Some n => if n =? 0 then None else Some n
  | None => None
  end.

(** [error.status || error.code || 500]. *)
Definition error_status (e : JsError) : Z :=
  match truthy_num (err_status e) with
  | Some n => n
  | None => default 500 (truthy_num (err_code e))
  end.

(** [message || JSON.stringify(error)]. *)
Definition error_text (e : JsError) : string :=
  let message := default "" (err_message e) in
  if Js.truthy message then message else err_json e.

Definition isGlobalQuotaExhausted (e : JsError) : bool :=
  Js.includes "limit: 0" (error_text e)
  || Js.includes "GenerateRequestsPerDayPerProjectPerModel-FreeTier" (error_text e).

Definition isQuota (e : JsError) : bool :=
  (error_status e =? 429)
  || Js.includes "429" (error_text e)
  || Js.includes "quota" (Js.toLowerCase (error_text e)).

Definition isServer (e : JsError) : bool :=
  (500 <=? error_status e) && (error_status e <? 600).

(** What the [catch] block does with an error: [true] records it and
    continues with the next key, [false] rethrows. *)
Definition retriable (e : JsError) : bool :=
  if isGlobalQuotaExhausted e then false
  else (isQuota e || isServer e).

Definition exhausted_error : JsError :=
  new_Error "All API keys exhausted or service unavailable.".

(** The [for] loop over [executionOrder]; the second component lists the
    keys a call was issued with, in order. *)
Fixpoint failover_loop (remote : string -> Params -> Attempt) (params : Params)
    (order : list string) (lastError : option JsError)
  : Outcome Response * list string :=
  match order with
  | [] => (Throw (default exhausted_error lastError), [])
  | apiKey :: rest =>
      match try_key remote apiKey params with
      | Return response => (Return response, [apiKey])
      | Throw e =>
          if retriable e then
            let '(res, tried) := failover_loop remote params rest (Some e) in
            (res, apiKey :: tried)
          else (Throw e, [apiKey])
      end
  end.

(** [API_KEYS[preferredRole] || keyPool[0]]; the pool is never empty
    once the module has loaded. *)
Definition primaryKey (ke : KeyEnv) (preferredRole : AgentRole) : string :=
  if Js.truthy (API_KEYS ke preferredRole) then API_KEYS ke preferredRole
  else default "" (head (keyPool ke)).

Definition backupKeys (ke : KeyEnv) (preferredRole : AgentRole) : list string :=
  filter (fun k => k <> primaryKey ke preferredRole) (keyPool ke).

Definition executionOrder (ke : KeyEnv) (preferredRole : AgentRole) : list string :=
  primaryKey ke preferredRole :: backupKeys ke preferredRole.

Definition generateContentWithFallback_trace (ke : KeyEnv)
    (remote : string -> Params -> Attempt)
    (params : Params) (preferredRole : AgentRole)
  : Outcome Response * list string :=
  failover_loop remote params (executionOrder ke preferredRole) None.

Definition generateContentWithFallback (ke : KeyEnv)
    (remote : string -> Params -> Attempt)
    (params : Params) (preferredRole : AgentRole) : Outcome Response :=
  fst (generateContentWithFallback_trace ke remote params preferredRole).

(** ** Default prompts ([constants.ts]) *)

Definition lines (xs : list string) : string := Js.join Js.nl xs.

Definition DEFAULT_SUPERVISOR_PROMPT : string := lines [
  "You are an expert Supervisor Agent. ";
  "Your goal is to break down the user's complex request into a highly detailed, granular list of sequential tasks.";
  "";
  "Rules:";
  "1. Break the workflow into very small, granular steps. ";
  "2. You MUST generate between 10 and 50 tasks depending on complexity. ";
  "3. The first task is usually for the Researcher.";
  "4. Assign the most appropriate agent for each step.";
  "5. The tasks must be strictly sequential.";
  "6. Provide a clear, actionable description for each task.";
  "7. CRITICAL CONSTRAINT: You are an AI model. You CANNOT perform physical experiments, make phone calls, conduct primary field research, or interact with the physical world. Limit tasks to digital research, data analysis, coding, and writing."
].

Definition DEFAULT_RESEARCHER_PROMPT : string := lines [
  "You are a Researcher Agent.";
  "Your goal is to find accurate, up-to-date information using the Google Search tool.";
  "Verify sources where possible. Provide comprehensive findings."
].

Definition DEFAULT_ANALYST_PROMPT : string := lines [
  "You are an Analyst Agent.";
  "Your goal is to process data, identify patterns, and derive insights from the provided context.";
  "Be logical, objective, and detailed."
].

Definition DEFAULT_WRITER_PROMPT : string := lines [
  "You are a Writer Agent.";
  "Your goal is to draft high-quality content based on the research and analysis provided.";
  "Adapt your tone to the requirement."
].

Definition DEFAULT_EDITOR_PROMPT : string := lines [
  "You are an Editor Agent.";
  "Your goal is to refine, polish, and structure content.";
  "Check for clarity, grammar, and flow."
].

Definition DEFAULT_CODER_PROMPT : string := lines [
  "You are a Coder Agent.";
  "Your goal is to write clean, efficient, and well-commented code.";
  "Explain your logic."
].

Definition DEFAULT_AGENT_PROMPTS : AgentPrompts :=
  <[role_name CODER := DEFAULT_CODER_PROMPT]>
  (<[role_name EDITOR := DEFAULT_EDITOR_PROMPT]>
  (<[role_name WRITER := DEFAULT_WRITER_PROMPT]>
  (<[role_name ANALYST := DEFAULT_ANALYST_PROMPT]>
  (<[role_name RESEARCHER := DEFAULT_RESEARCHER_PROMPT]>
  (<[role_name SUPERVISOR := DEFAULT_SUPERVISOR_PROMPT]> ∅))))).

Definition DEFAULT_RATE_LIMIT : RateLimitConfig :=
  mkConfig 100000 1 minutes 0.

(** [prompts[role]]. *)
Definition prompt_of (prompts : AgentPrompts) (r : AgentRole) : option string :=
  prompts !! role_name r.

(** An [AgentPrompts] object is complete when every role has an entry. *)
Definition total_prompts (prompts : AgentPrompts) : Prop :=
  forall r : AgentRole, is_Some (prompt_of prompts r).

(** ** The world the component runs in *)

(** What [JSON.parse] makes of a model's text.  The items of an array
    are taken as the declared [Task] type has them: every member
    present and the agent one of the roles. *)
Inductive JsonResult :=
| Json_SyntaxError (e : JsError)
| Json_other                       (* a value that is not an array *)
| Json_array (items : list (string * string * AgentRole)).
                                   (* title, description, assignedAgent *)

Record Env := mkEnv {
  clock : nat -> Z;                 (* the n-th reading of [Date.now()] *)
  random_id : nat -> string;        (* the n-th [Math.random().toString(36).substr(2, 9)] *)
  remote : string -> Params -> Attempt;   (* [ai.models.generateContent] with a key *)
  JSON_parse : string -> JsonResult;
  keyEnv : KeyEnv;
  INITIAL_windowStartTime : Z       (* [Date.now()] when the module was loaded *)
}.

Record World := mkWorld {
  committed : AppState;             (* the state React holds *)
  stateRef : AppState;              (* [stateRef.current] *)
  query : string;
  config : RateLimitConfig;         (* also [configRef.current] *)
  dateReads : nat;
  randomDraws : nat;
  autosave : bool                   (* is the [AUTOSAVE_KEY] slot filled *)
}.

Definition M (A : Type) : Type := World -> A * World.

Definition ret {A} (a : A) : M A := fun w => (a, w).

Definition bind {A B} (m : M A) (k : A -> M B) : M B :=
  fun w => let '(a, w') := m w in k a w'.

Notation "'let*' x ':=' m 'in' k" := (bind m (fun x => k))
  (at level 10, x pattern, m at level 100, k at level 200).
Notation "m ';;' k" := (bind m (fun _ => k))
  (at level 100, k at level 200, right associativity).

Definition with_committed (f : AppState -> AppState) (w : World) : World :=
  mkWorld (f (committed w)) (stateRef w) (query w) (config w)
    (dateReads w) (randomDraws w) (autosave w).

(** [setState(updater)]. *)
Definition setState (f : AppState -> AppState) : M unit :=
  fun w => (tt, with_committed f w).

(** A re-render followed by the effect [stateRef.current = state]. *)
Definition render (w : World) : World :=
  mkWorld (committed w) (committed w) (query w) (config w)
    (dateReads w) (randomDraws w) (autosave w).

(** [await p]: the component re-renders before the caller resumes. *)
Definition await {A} (p : M A) : M A :=
  fun w => let '(a, w') := p w in (a, render w').

Definition readRef : M AppState := fun w => (stateRef w, w).
Definition readConfig : M RateLimitConfig := fun w => (config w, w).
Definition readQuery : M string := fun w => (query w, w).

Definition removeAutosave : M unit :=
  fun w => (tt, mkWorld (committed w) (stateRef w) (query w) (config w)
                  (dateReads w) (randomDraws w) false).

Section Program.

Variable E : Env.

Definition Date_now : M Z :=
  fun w => (clock E (dateReads w),
            mkWorld (committed w) (stateRef w) (query w) (config w)
              (S (dateReads w)) (randomDraws w) (autosave w)).

Definition Math_random_id : M string :=
  fun w => (random_id E (randomDraws w),
            mkWorld (committed w) (stateRef w) (query w) (config w)
              (dateReads w) (S (randomDraws w)) (autosave w)).

(** [xs.map((t, i) => f(t, i))] where [f] reads the clock. *)
Fixpoint mapi_M {A B} (f : nat -> A -> M B) (i : nat) (xs : list A) : M (list B) :=
  match xs with
  | [] => ret []
  | x :: rest =>
      let* y := f i x in
      let* ys := mapi_M f (S i) rest in
      ret (y :: ys)
  end.

Definition INITIAL_STATE : AppState :=
  mkState idle [] [] 0%nat 0 (INITIAL_windowStartTime E) 0 None DEFAULT_AGENT_PROMPTS.

(** ** Agent functions ([geminiService.ts])

    The asynchronous functions that read nothing but their arguments and
    the remote model are plain functions; the caller awaits them.  Only
    [createSupervisorPlan] reads the clock. *)

Definition modelId : string := "gemini-3-flash-preview".

Definition call_model (params : Params) (role : AgentRole) : Outcome Response :=
  generateContentWithFallback (keyEnv E) (remote E) params role.

(** The error of calling [.map] on a parsed value that is not an array. *)
Definition TypeError_map : JsError :=
  mkError "TypeError" None None (Some "map is not a function") "{}".

Definition planning_prompt (userQuery : string) (prompts : AgentPrompts) : string :=
  Js.interp (prompt_of prompts SUPERVISOR) ++ Js.nl ++ Js.nl
  ++ "User Request: " ++ Js.dquote ++ userQuery ++ Js.dquote ++ Js.nl ++ Js.nl
  ++ "Return a JSON array of tasks.".

Definition new_task (now : Z) (index : nat) (t : string * string * AgentRole) : Task :=
  let '(ttl, descr, ag) := t in
  mkTask ("task-" ++ Js.show_Z now ++ "-" ++ Js.show_nat index)
    ttl descr ag t_pending None None.

(** The [.map] that stamps each raw task with an id read from the clock. *)
Definition stamp_tasks (raw : list (string * string * AgentRole)) : M (list Task) :=
  mapi_M (fun index t => let* now := Date_now in ret (new_task now index t)) 0%nat raw.

(** 1. Supervisor: create the initial plan. *)
Definition createSupervisorPlan (userQuery : string) (prompts : AgentPrompts)
  : M (Outcome (list Task * Z * string)) :=
  let fullPrompt := planning_prompt userQuery prompts in
  match call_model (mkParams modelId fullPrompt cfg_plan_schema) SUPERVISOR with
  | Throw e => ret (Throw e)
  | Return response =>
      let jsonText := Js.or_else (text response) "[]" in
      match JSON_parse E jsonText with
      | Json_SyntaxError e => ret (Throw e)
      | Json_other => ret (Throw TypeError_map)
      | Json_array tasksRaw =>
          let usage := Js.num_or_zero (totalTokenCount response) in
          let* tasks := stamp_tasks tasksRaw in
          ret (Return (tasks, usage, fullPrompt))
      end
  end.

(** A line of the progress report.  [substring(0, 300)] counts
    characters of the text as this embedding holds it, one per byte; the
    program counts UTF-16 units, which is the same on ASCII results. *)
Definition completed_line (t : Task) : string :=
  "- [" ++ role_name (assignedAgent t) ++ "] " ++ title t ++ ": "
  ++ match result t with
     | Some r => if Js.truthy r then String.substring 0 300 r ++ "..." else "Done"
     | None => "Done"
     end.

Definition remaining_line (t : Task) : string :=
  "- " ++ title t ++ " (" ++ role_name (assignedAgent t) ++ ")".

Definition maxNewTasks : Z := 5.

Definition replanning_prompt (userQuery : string)
    (completedTasks remainingTasks : list Task) (prompts : AgentPrompts) : string :=
  lines [
    Js.interp (prompt_of prompts SUPERVISOR);
    "    ";
    "    Original Objective: " ++ Js.dquote ++ userQuery ++ Js.dquote;
    "";
    "    Progress so far (Completed Tasks):";
    "    " ++ Js.join Js.nl (map completed_line completedTasks);
    "";
    "    Current Remaining Plan:";
    "    " ++ Js.join Js.nl (map remaining_line remainingTasks);
    "";
    "    Your Task:";
    "    Evaluate the progress. ";
    "    1. If findings require new tasks, add them to the remaining list.";
    "    2. If the current plan is valid, return it as is.";
    "    3. You can reorder tasks.";
    "";
    "    CRITICAL SCOPE CONSTRAINTS:";
    "    - You are strictly limited to adding a MAXIMUM of " ++ Js.show_Z maxNewTasks ++ " new tasks.";
    "    - Do NOT expand the scope unless absolutely critical for the objective.";
    "    - Prefer completing the current plan over adding 'nice-to-have' steps.";
    "";
    "    Return a JSON array of the *remaining* tasks (do not include completed ones)."
  ].

(** The three members of a task that the caller of the re-planner reads. *)
Definition raw_of_task (t : Task) : string * string * AgentRole :=
  (title t, description t, assignedAgent t).

(** 2. Supervisor: update the plan.  [None] in the first component is a
    parsed value that is not an array.  Never throws: any failure of the
    call or of [JSON.parse] falls back to [remainingTasks] with usage 0. *)
Definition updateSupervisorPlan (userQuery : string)
    (completedTasks remainingTasks : list Task) (prompts : AgentPrompts)
  : option (list (string * string * AgentRole)) * Z * string :=
  let fullPrompt := replanning_prompt userQuery completedTasks remainingTasks prompts in
  let fallback := (Some (map raw_of_task remainingTasks), 0, fullPrompt) in
  match call_model (mkParams modelId fullPrompt cfg_replan_schema) SUPERVISOR with
  | Throw _ => fallback
  | Return response =>
      let jsonText := Js.or_else (text response) "[]" in
      match JSON_parse E jsonText with
      | Json_SyntaxError _ => fallback
      | Json_other =>
          (None, Js.num_or_zero (totalTokenCount response), fullPrompt)
      | Json_array tasksRaw =>
          (Some tasksRaw, Js.num_or_zero (totalTokenCount response), fullPrompt)
      end
  end.

Definition agent_prompt (agent : AgentRole) (task : Task) (context : string)
    (prompts : AgentPrompts) : string :=
  lines [
    Js.interp (prompt_of prompts agent);
    "    ";
    "    Your Task: " ++ title task;
    "    Details: " ++ description task;
    "";
    "    Context (Results from previous steps):";
    "    " ++ (if Js.truthy context then context
               else "No previous context. You are starting the workflow.");
    "    "
  ].

Definition grounding_sources (response : Response) : list string :=
  match candidates response with
  | Some (c :: _) =>
      match groundingChunks c with
      | Some chunks =>
          omap (fun uri => match uri with
                           | Some u => if Js.truthy u then Some u else None
                           | None => None
                           end) chunks
      | None => []
      end
  | _ => []
  end.

Record AgentResult := mkAgentResult {
  res_text : string;
  res_sources : list string;
  res_usage : Z;
  res_prompt : string
}.

(** 3. Execute one task with the role's agent. *)
Definition executeAgentTask (agent : AgentRole) (task : Task) (context : string)
    (prompts : AgentPrompts) : Outcome AgentResult :=
  let tools := match agent with RESEARCHER => true | _ => false end in
  let fullPrompt := agent_prompt agent task context prompts in
  match call_model (mkParams modelId fullPrompt (cfg_tools tools)) agent with
  | Throw e => Throw e
  | Return response =>
      let outputText :=
        Js.or_else (text response) "Task completed, but no text output generated." in
      let usage := Js.num_or_zero (totalTokenCount response) in
      Return (mkAgentResult outputText (grounding_sources response) usage fullPrompt)
  end.

Definition synthesis_prompt (context : string) (prompts : AgentPrompts) : string :=
  lines [
    Js.interp (prompt_of prompts SUPERVISOR);
    "     ";
    "     The team has finished all tasks.";
    "     Here is the accumulated work logs:";
    "     " ++ context;
    "";
    "     Please compile this into a final, polished output for the user. ";
    "     Format it nicely with Markdown."
  ].

(** 4. Supervisor: final synthesis.  Never throws. *)
Definition superviseFinalOutput (context : string) (prompts : AgentPrompts)
  : string * Z * string :=
  let fullPrompt := synthesis_prompt context prompts in
  match call_model (mkParams modelId fullPrompt cfg_none) SUPERVISOR with
  | Return response =>
      let usage := Js.num_or_zero (totalTokenCount response) in
      (Js.or_else (text response) "Final output generation failed.", usage, fullPrompt)
  | Throw e =>
      ("Error generating final output: " ++ error_toString e, 0, fullPrompt)
  end.

End Program.

(** The texts of the log entries of [processNextStep]. *)
Module Msg.

Definition thinking : string :=
  "Thinking... Analyzing request to build granular plan.".

Definition planning_prompt (prompt : string) : string :=
  "[SYSTEM] Supervisor Planning Prompt:" ++ Js.nl ++ prompt.

Definition plan_created (n : nat) (used : Z) : string :=
  "Plan created with " ++ Js.show_nat n ++ " tasks. (Used " ++ Js.show_Z used ++ " tokens)".

Definition all_completed : string :=
  "All tasks completed. Compiling final report...".

Definition synthesis_prompt (prompt : string) : string :=
  "[SYSTEM] Final Synthesis Prompt:" ++ Js.nl ++ prompt.

Definition final_delivered (used : Z) : string :=
  "Final output delivered. (Used " ++ Js.show_Z used ++ " tokens)".

Definition starting_task (taskIndex total : nat) (task : Task) : string :=
  "Starting Task " ++ Js.show_nat (taskIndex + 1) ++ "/" ++ Js.show_nat total ++ ": "
  ++ title task ++ " (" ++ role_name (assignedAgent task) ++ ")".

Definition agent_prompt (prompt : string) : string :=
  "[SYSTEM] Agent Prompt:" ++ Js.nl ++ prompt.

Definition agent_output (output : string) : string :=
  "[SYSTEM] Agent Output:" ++ Js.nl ++ output.

Definition task_complete (used : Z) : string :=
  "Task Complete. (Used " ++ Js.show_Z used ++ " tokens)".

Definition evaluating : string :=
  "Evaluating progress and checking if plan needs updates...".

Definition replanning_prompt (prompt : string) : string :=
  "[SYSTEM] Re-planning Prompt:" ++ Js.nl ++ prompt.

Definition plan_updated (n : nat) (used : Z) : string :=
  "Plan updated. Remaining tasks: " ++ Js.show_nat n ++ " (Used " ++ Js.show_Z used
  ++ " tokens)".

Definition quota_exceeded : string :=
  "CRITICAL: Rate limit exceeded. Pausing mission. Resume when quota resets.".

Definition error (errMsg : string) : string := "Error: " ++ errMsg.

End Msg.

(** Reading a member of [undefined]. *)
Definition TypeError_undefined : JsError :=
  mkError "TypeError" None None (Some "Cannot read properties of undefined") "{}".

(** ** The component ([App.tsx]) *)

Section App.

Variable E : Env.

Definition periodMs_of (cfg : RateLimitConfig) : Z :=
  match periodUnit cfg with
  | seconds => periodValue cfg * 1000
  | minutes => periodValue cfg * 60 * 1000
  | hours => periodValue cfg * 60 * 60 * 1000
  end.

(** [(tokenUsage / maxTokens) * 100 >= 80].  A zero divisor gives
    [Infinity], [-Infinity] or [NaN], of which only [Infinity] passes.
    The quotient is exact here; the doubles of the program answer the
    same whenever the exact answer is [true], and for a budget up to
    10^15 also when it is [false]. *)
Definition percentageUsed_ge_80 (tokenUsage maxTokens : Z) : bool :=
  if maxTokens =? 0 then 0 <? tokenUsage
  else Qle_bool 80 ((inject_Z tokenUsage / inject_Z maxTokens) * 100)%Q.

Definition window_reset (now : Z) (s : AppState) : AppState :=
  set_status (if decide (status s = cooldown) then working else status s)
    (set_windowStartTime now (set_tokenUsage 0 s)).

Definition enter_cooldown (now waitTime : Z) (s : AppState) : AppState :=
  set_nextAllowedQueryTime (now + waitTime) (set_status cooldown s).

(** Rate limiting (token based). *)
Definition checkRateLimit : M bool :=
  let* cur := readRef in
  let* cfg := readConfig in
  let periodMs := periodMs_of cfg in
  let* now := Date_now E in
  let elapsed := now - windowStartTime cur in
  if elapsed >? periodMs then
    setState (window_reset now) ;;
    ret true
  else if percentageUsed_ge_80 (tokenUsage cur) (maxTokens cfg) then
    let waitTime := periodMs - elapsed in
    setState (enter_cooldown now waitTime) ;;
    ret false
  else ret true.

Definition timer_resume (now : Z) (s : AppState) : AppState :=
  set_windowStartTime now (set_status working s).

(** One firing of the 100 ms interval of the cooldown / auto-resume
    effect; the interval only exists while the rendered status is
    [cooldown] or [auto-paused]. *)
Definition timerTick : M unit :=
  let* cur := readRef in
  let* now := Date_now E in
  let remaining := Z.max 0 (nextAllowedQueryTime cur - now) in
  if remaining <=? 0 then
    let* cur' := readRef in
    if decide (status cur' <> paused) then
      let* now' := Date_now E in
      setState (timer_resume now')
    else ret tt
  else ret tt.

Definition append_log (entry : LogEntry) (s : AppState) : AppState :=
  set_logs (logs s ++ [entry])%list s.

(** The id and the time of the entry are read when [addLog] is called.
    The program reads them inside the updater, which React runs by the
    next render at the latest: there these two readings can come after
    the other readings of the same synchronous stretch. *)
Definition addLog (ag : AgentRole) (msg : string) (ty : LogType)
    (meta : option (list string)) : M unit :=
  let* id := Math_random_id E in
  let* ts := Date_now E in
  setState (append_log (mkLog id ts ag msg ty meta)).

(** [tasks.map((t, i) => i === taskIndex ? f(t) : t)]. *)
Definition map_at (taskIndex : nat) (f : Task -> Task) (ts : list Task) : list Task :=
  imap (fun i t => if decide (i = taskIndex) then f t else t) ts.

Definition mark_in_progress (taskIndex : nat) (s : AppState) : AppState :=
  set_tasks (map_at taskIndex (set_task_status t_in_progress) (tasks s)) s.

Definition complete_task (r : AgentResult) (t : Task) : Task :=
  mkTask (task_id t) (title t) (description t) (assignedAgent t)
    t_completed (Some (res_text r)) (Some (res_usage r)).

Definition plan_created (ts : list Task) (used : Z) (s : AppState) : AppState :=
  set_tokenUsage (tokenUsage s + used)
    (set_currentTaskIndex 0%nat (set_tasks ts (set_status working s))).

Definition deliver (out : string) (used : Z) (s : AppState) : AppState :=
  set_tokenUsage (tokenUsage s + used)
    (set_finalOutput (Some out) (set_status completed s)).

Definition advance (used additionalUsage : Z) (nextTasks : list Task)
    (s : AppState) : AppState :=
  set_tasks nextTasks
    (set_tokenUsage (tokenUsage s + used + additionalUsage)
       (set_currentTaskIndex (currentTaskIndex s + 1)%nat s)).

Definition final_context (ts : list Task) : string :=
  Js.join (Js.nl ++ Js.nl)
    (map (fun t => "Task: " ++ title t ++ Js.nl ++ "Result: " ++ Js.interp (result t)) ts).

Definition prior_context (taskIndex : nat) (ts : list Task) : string :=
  Js.join (Js.nl ++ Js.nl)
    (map (fun t => "[Completed Task: " ++ title t ++ "]" ++ Js.nl
                   ++ "Result: " ++ Js.interp (result t))
         (take taskIndex ts)).

(** The planning case of the [try] block. *)
Definition planning_phase (current : AppState) : M (Outcome unit) :=
  addLog SUPERVISOR Msg.thinking log_plan None ;;
  let* q := readQuery in
  let* r := await (createSupervisorPlan E q (agentPrompts current)) in
  match r with
  | Throw e => ret (Throw e)
  | Return (ts, used, prompt) =>
      addLog SUPERVISOR (Msg.planning_prompt prompt) log_info None ;;
      setState (plan_created ts used) ;;
      addLog SUPERVISOR (Msg.plan_created (length ts) used) log_plan None ;;
      ret (Return tt)
  end.

(** The final-synthesis case of the [try] block. *)
Definition synthesis_phase (current : AppState) : M (Outcome unit) :=
  addLog SUPERVISOR Msg.all_completed log_info None ;;
  let* ok := checkRateLimit in
  if negb ok then ret (Return tt)
  else
    let context := final_context (tasks current) in
    let* r := await (ret (superviseFinalOutput E context (agentPrompts current))) in
    let '(out, used, prompt) := r in
    addLog SUPERVISOR (Msg.synthesis_prompt prompt) log_info None ;;
    setState (deliver out used) ;;
    addLog SUPERVISOR (Msg.final_delivered used) log_result None ;;
    removeAutosave ;;
    ret (Return tt).

(** The re-planning block: returns [nextTasks] and [additionalUsage]. *)
Definition replanning (taskIndex : nat) (current : AppState)
    (updated : list Task) : M (Outcome (list Task * Z)) :=
  let remainingCount := Z.of_nat (length updated) - (Z.of_nat taskIndex + 1) in
  let* go := (if 0 <? remainingCount then checkRateLimit else ret false) in
  if go then
    addLog SUPERVISOR Msg.evaluating log_plan None ;;
    let completedTasks := take (taskIndex + 1) updated in
    let remainingTasks := drop (taskIndex + 1) updated in
    let* q := readQuery in
    let* replanResult :=
      await (ret (updateSupervisorPlan E q completedTasks remainingTasks
                    (agentPrompts current))) in
    let '(replanTasks, replanUsage, replanPrompt) := replanResult in
    addLog SUPERVISOR (Msg.replanning_prompt replanPrompt) log_info None ;;
    match replanTasks with
    | None => ret (Throw TypeError_map)
    | Some raw =>
        let* newRemainingTasks := stamp_tasks E raw in
        addLog SUPERVISOR (Msg.plan_updated (length newRemainingTasks) replanUsage)
          log_plan None ;;
        ret (Return ((completedTasks ++ newRemainingTasks)%list, replanUsage))
    end
  else ret (Return (updated, 0)).

(** The task-execution case of the [try] block. *)
Definition execution_phase (current : AppState) : M (Outcome unit) :=
  let taskIndex := currentTaskIndex current in
  setState (mark_in_progress taskIndex) ;;
  match tasks current !! taskIndex with
  | None => ret (Throw TypeError_undefined)
  | Some task =>
      addLog SUPERVISOR (Msg.starting_task taskIndex (length (tasks current)) task)
        log_action None ;;
      let context := prior_context taskIndex (tasks current) in
      let* r := await (ret (executeAgentTask E (assignedAgent task) task context
                              (agentPrompts current))) in
      match r with
      | Throw e => ret (Throw e)
      | Return res =>
          addLog (assignedAgent task) (Msg.agent_prompt (res_prompt res)) log_info None ;;
          addLog (assignedAgent task) (Msg.agent_output (res_text res)) log_info None ;;
          addLog (assignedAgent task) (Msg.task_complete (res_usage res))
            log_result (Some (res_sources res)) ;;
          let updatedTasksWithCurrentResult :=
            map_at taskIndex (complete_task res) (tasks current) in
          let* rp := replanning taskIndex current updatedTasksWithCurrentResult in
          match rp with
          | Throw e => ret (Throw e)
          | Return (nextTasks, additionalUsage) =>
              setState (advance (res_usage res) additionalUsage nextTasks) ;;
              ret (Return tt)
          end
      end
  end.

Definition try_block (current : AppState) : M (Outcome unit) :=
  if decide (status current = planning) then planning_phase current
  else if (length (tasks current) <=? currentTaskIndex current)%nat
       then synthesis_phase current
       else execution_phase current.

(** [err.status === 429 || errMsg.includes('429') || errMsg.includes('quota')]. *)
Definition step_isQuota (err : JsError) : bool :=
  let errMsg := default "" (err_message err) in
  match err_status err with Some 429 => true | _ => false end
  || Js.includes "429" errMsg || Js.includes "quota" errMsg.

Definition catch_block (err : JsError) : M unit :=
  let errMsg := default "" (err_message err) in
  if step_isQuota err then
    addLog SUPERVISOR Msg.quota_exceeded log_error None ;;
    setState (set_status paused)
  else
    addLog SUPERVISOR (Msg.error errMsg) log_error None ;;
    setState (set_status paused).

(** Main execution step.  The value returned is the error the [catch]
    block handled, if the [try] block threw. *)
Definition processNextStep_traced : M (option JsError) :=
  let* current := readRef in
  if negb (bool_decide (status current = working)
           || bool_decide (status current = planning)) then ret None
  else
    let* ok := checkRateLimit in
    if negb ok then ret None
    else
      let* r := try_block current in
      match r with
      | Return _ => ret None
      | Throw err => catch_block err ;; ret (Some err)
      end.

Definition processNextStep : M unit :=
  processNextStep_traced ;; ret tt.

End App.

(** ** Sessions and the handlers of the component *)

(** [AppState] as read back from storage: any member may be missing. *)
Record LoadedState := mkLoaded {
  ld_status : option Status;
  ld_tasks : option (list Task);
  ld_logs : option (list LogEntry);
  ld_currentTaskIndex : option nat;
  ld_tokenUsage : option Z;
  ld_windowStartTime : option Z;
  ld_nextAllowedQueryTime : option Z;
  ld_finalOutput : option (option string);
  ld_agentPrompts : option AgentPrompts     (* absent or [null]: [None] *)
}.

Record SavedSession := mkSession {
  session_id : string;
  session_timestamp : Z;
  session_query : string;
  session_config : RateLimitConfig;
  session_state : LoadedState
}.

(** What [JSON.stringify] keeps of a state: every member. *)
Definition stored_state (s : AppState) : LoadedState :=
  mkLoaded (Some (status s)) (Some (tasks s)) (Some (logs s))
    (Some (currentTaskIndex s)) (Some (tokenUsage s)) (Some (windowStartTime s))
    (Some (nextAllowedQueryTime s)) (Some (finalOutput s)) (Some (agentPrompts s)).

Section Handlers.

Variable E : Env.

(** [{ ...INITIAL_STATE, ...saved, agentPrompts: saved.agentPrompts ||
    INITIAL_STATE.agentPrompts, status: 'paused' }]. *)
Definition merge_loaded (saved : LoadedState) : AppState :=
  let i := INITIAL_STATE E in
  mkState paused
    (default (tasks i) (ld_tasks saved))
    (default (logs i) (ld_logs saved))
    (default (currentTaskIndex i) (ld_currentTaskIndex saved))
    (default (tokenUsage i) (ld_tokenUsage saved))
    (default (windowStartTime i) (ld_windowStartTime saved))
    (default (nextAllowedQueryTime i) (ld_nextAllowedQueryTime saved))
    (default (finalOutput i) (ld_finalOutput saved))
    (default (agentPrompts i) (ld_agentPrompts saved)).

Definition setQuery (q : string) : M unit :=
  fun w => (tt, mkWorld (committed w) (stateRef w) q (config w)
                  (dateReads w) (randomDraws w) (autosave w)).

Definition setConfig (c : RateLimitConfig) : M unit :=
  fun w => (tt, mkWorld (committed w) (stateRef w) (query w) c
                  (dateReads w) (randomDraws w) (autosave w)).

(** The mount effect that offers to resume an interrupted mission;
    [confirmed] is the user's answer to the dialog. *)
Definition resumeAutosave (saved : SavedSession) (confirmed : bool) : M unit :=
  let st := ld_status (session_state saved) in
  if bool_decide (st <> Some idle) && bool_decide (st <> Some completed) then
    if confirmed then
      setQuery (session_query saved) ;;
      setConfig (session_config saved) ;;
      setState (fun _ => merge_loaded (session_state saved))
    else ret tt
  else ret tt.

Definition fresh_mission (now : Z) (prompts : AgentPrompts) : AppState :=
  set_agentPrompts prompts
    (set_windowStartTime now (set_status planning (INITIAL_STATE E))).

Definition handleStart : M unit :=
  fun w =>
    if negb (Js.truthy (Js.trim (query w))) then (tt, w)
    else (let* now := Date_now E in
          setState (fun _ => fresh_mission now (agentPrompts (committed w)))) w.

Definition handlePause : M unit :=
  let* cfg := readConfig in
  if 0 <? autoResumeMinutes cfg then
    let delayMs := autoResumeMinutes cfg * 60 * 1000 in
    let* now := Date_now E in
    setState (fun s => set_nextAllowedQueryTime (now + delayMs) (set_status auto_paused s))
  else setState (set_status paused).

Definition handleStopTimer : M unit := setState (set_status paused).

Definition handleResume : M unit :=
  fun w =>
    let statusToResume :=
      if (0 <? length (tasks (committed w)))%nat then working else planning in
    setState (set_status statusToResume) w.

Definition handleRestart (confirmed : bool) : M unit :=
  fun w =>
    if confirmed then
      (let* now := Date_now E in
       setState (fun _ => fresh_mission now (agentPrompts (committed w)))) w
    else (tt, w).

Definition handleLoadSession (session : SavedSession) (confirmed : bool) : M unit :=
  fun w =>
    if (bool_decide (status (committed w) = working)
        || bool_decide (status (committed w) = planning)) && negb confirmed
    then (tt, w)
    else (setQuery (session_query session) ;;
          setConfig (session_config session) ;;
          setState (fun _ => merge_loaded (session_state session))) w.

Definition updatePrompt (role : AgentRole) (prompt : string) : M unit :=
  setState (fun s => set_agentPrompts (<[role_name role := prompt]> (agentPrompts s)) s).

Definition resetPrompts : M unit :=
  setState (set_agentPrompts DEFAULT_AGENT_PROMPTS).

(** Everything that can happen to a running mission.  [handleStart] is
    not among them: its button only exists in a resting status ([idle],
    [completed], [error]), where it begins the next mission. *)
Inductive Action :=
| Step                                   (* the pacing timeout fires *)
| Tick                                   (* the cooldown interval fires *)
| Pause
| StopTimer
| Resume
| Restart
| LoadSession (session : SavedSession)
| UpdatePrompt (role : AgentRole) (prompt : string)
| ResetPrompts.

(** The timers only exist while the rendered status asks for them, and
    the buttons only while the page shows them. *)
Definition perform (a : Action) : M unit :=
  match a with
  | Step => processNextStep E
  | Tick =>
      fun w => if bool_decide (status (committed w) = cooldown)
                  || bool_decide (status (committed w) = auto_paused)
               then timerTick E w else (tt, w)
  | Pause => handlePause
  | StopTimer => handleStopTimer
  | Resume => handleResume
  | Restart => handleRestart true
  | LoadSession session => handleLoadSession session true
  | UpdatePrompt role prompt => updatePrompt role prompt
  | ResetPrompts => resetPrompts
  end.

(** An action followed by the re-render it causes. *)
Definition react (a : Action) (w : World) : World := render (snd (perform a w)).

End Handlers.

(** ** A step in two parts

    [processNextStep] is an [async] function: a call runs to its first
    [await] and goes on when the awaited model call has settled.  In
    between the component renders, and the timers and the handlers run;
    nothing in the function remembers that a step is under way.
    [step_begin] is the function up to its first [await] and
    [step_resume] is the rest of it, with the values the closure holds:
    the state read from [stateRef] at the start and the [query] of the
    render that created the callback. *)

Inductive InFlight :=
| plan_call (q : string) (current : AppState)
      (* [await createSupervisorPlan(query, current.agentPrompts)] *)
| synthesis_call (current : AppState)
      (* [await superviseFinalOutput(context, current.agentPrompts)] *)
| agent_call (q : string) (current : AppState) (task : Task).
      (* [await executeAgentTask(task.assignedAgent, task, context, ...)] *)

Inductive Started :=
| returned (err : option JsError)    (* the call ended before any [await] *)
| suspended (f : InFlight).

Section Async.

Variable E : Env.

Definition step_begin : M Started :=
  let* current := readRef in
  if negb (bool_decide (status current = working)
           || bool_decide (status current = planning)) then ret (returned None)
  else
    let* ok := checkRateLimit E in
    if negb ok then ret (returned None)
    else if decide (status current = planning) then
      addLog E SUPERVISOR Msg.thinking log_plan None ;;
      let* q := readQuery in
      ret (suspended (plan_call q current))
    else if (length (tasks current) <=? currentTaskIndex current)%nat then
      addLog E SUPERVISOR Msg.all_completed log_info None ;;
      let* ok := checkRateLimit E in
      if negb ok then ret (returned None)
      else ret (suspended (synthesis_call current))
    else
      let taskIndex := currentTaskIndex current in
      setState (mark_in_progress taskIndex) ;;
      match tasks current !! taskIndex with
      | None =>
          catch_block E TypeError_undefined ;;
          ret (returned (Some TypeError_undefined))
      | Some task =>
          addLog E SUPERVISOR
            (Msg.starting_task taskIndex (length (tasks current)) task) log_action None ;;
          let* q := readQuery in
          ret (suspended (agent_call q current task))
      end.

(** The re-planning block with the [query] of the closure. *)
Definition replanning_from (q : string) (taskIndex : nat) (current : AppState)
    (updated : list Task) : M (Outcome (list Task * Z)) :=
  let remainingCount := Z.of_nat (length updated) - (Z.of_nat taskIndex + 1) in
  let* go := (if 0 <? remainingCount then checkRateLimit E else ret false) in
  if go then
    addLog E SUPERVISOR Msg.evaluating log_plan None ;;
    let completedTasks := take (taskIndex + 1) updated in
    let remainingTasks := drop (taskIndex + 1) updated in
    let* replanResult :=
      await (ret (updateSupervisorPlan E q completedTasks remainingTasks
                    (agentPrompts current))) in
    let '(replanTasks, replanUsage, replanPrompt) := replanResult in
    addLog E SUPERVISOR (Msg.replanning_prompt replanPrompt) log_info None ;;
    match replanTasks with
    | None => ret (Throw TypeError_map)
    | Some raw =>
        let* newRemainingTasks := stamp_tasks E raw in
        addLog E SUPERVISOR (Msg.plan_updated (length newRemainingTasks) replanUsage)
          log_plan None ;;
        ret (Return ((completedTasks ++ newRemainingTasks)%list, replanUsage))
    end
  else ret (Return (updated, 0)).

(** The [try] block from the settled call on. *)
Definition resume_try (f : InFlight) : M (Outcome unit) :=
  match f with
  | plan_call q current =>
      let* r := await (createSupervisorPlan E q (agentPrompts current)) in
      match r with
      | Throw e => ret (Throw e)
      | Return (ts, used, prompt) =>
          addLog E SUPERVISOR (Msg.planning_prompt prompt) log_info None ;;
          setState (plan_created ts used) ;;
          addLog E SUPERVISOR (Msg.plan_created (length ts) used) log_plan None ;;
          ret (Return tt)
      end
  | synthesis_call current =>
      let context := final_context (tasks current) in
      let* r := await (ret (superviseFinalOutput E context (agentPrompts current))) in
      let '(out, used, prompt) := r in
      addLog E SUPERVISOR (Msg.synthesis_prompt prompt) log_info None ;;
      setState (deliver out used) ;;
      addLog E SUPERVISOR (Msg.final_delivered used) log_result None ;;
      removeAutosave ;;
      ret (Return tt)
  | agent_call q current task =>
      let taskIndex := currentTaskIndex current in
      let context := prior_context taskIndex (tasks current) in
      let* r := await (ret (executeAgentTask E (assignedAgent task) task context
                              (agentPrompts current))) in
      match r with
      | Throw e => ret (Throw e)
      | Return res =>
          addLog E (assignedAgent task) (Msg.agent_prompt (res_prompt res)) log_info None ;;
          addLog E (assignedAgent task) (Msg.agent_output (res_text res)) log_info None ;;
          addLog E (assignedAgent task) (Msg.task_complete (res_usage res))
            log_result (Some (res_sources res)) ;;
          let updatedTasksWithCurrentResult :=
            map_at taskIndex (complete_task res) (tasks current) in
          let* rp := replanning_from q taskIndex current updatedTasksWithCurrentResult in
          match rp with
          | Throw e => ret (Throw e)
          | Return (nextTasks, additionalUsage) =>
              setState (advance (res_usage res) additionalUsage nextTasks) ;;
              ret (Return tt)
          end
      end
  end.

Definition step_resume (f : InFlight) : M (option JsError) :=
  let* r := resume_try f in
  match r with
  | Return _ => ret None
  | Throw err => catch_block E err ;; ret (Some err)
  end.

(** The two parts run one after the other. *)
Definition step_in_turn : M (option JsError) :=
  let* st := step_begin in
  match st with
  | returned err => ret err
  | suspended f => step_resume f
  end.

(** The dependencies of the pacing effect: [state.status],
    [state.currentTaskIndex], [state.tokenUsage] and [processNextStep],
    which is a new function whenever [query] has changed. *)
Definition pacing_deps (w : World) : Status * nat * Z * string :=
  (status (committed w), currentTaskIndex (committed w), tokenUsage (committed w),
   query w).

(** The pacing effect after a render: it runs again when one of its
    dependencies has changed, and then arms the one-second timeout of
    [processNextStep] if the status is [planning] or [working]. *)
Definition pacing_rearmed (before after : World) : bool :=
  (bool_decide (status (committed after) = planning)
   || bool_decide (status (committed after) = working))
  && negb (bool_decide (pacing_deps before = pacing_deps after)).

(** What can happen to the component: an action, the start of a step,
    or the settling of the call a step is waiting for.  Each is followed
    by the render it causes. *)
Inductive Event :=
| act (a : Action)
| begin_step
| settle (f : InFlight).

Definition occur (ev : Event) (w : World) : World :=
  match ev with
  | act a => react E a w
  | begin_step => render (snd (step_begin w))
  | settle f => render (snd (step_resume f w))
  end.

(** A history of events; the steps of a history may overlap. *)
Definition play (evs : list Event) (w : World) : World :=
  foldl (fun w ev => occur ev w) w evs.

End Async.

(** ** Vocabulary of the statements *)

(** A world between two actions: the component has rendered, so the ref
    holds the committed state. *)
Definition rendered (w : World) : Prop := stateRef w = committed w.

Definition valid_config (cfg : RateLimitConfig) : Prop :=
  0 < maxTokens cfg /\ 0 < periodValue cfg.

(** [k] more readings of the clock. *)
Definition advance_clock (k : nat) (w : World) : World :=
  mkWorld (committed w) (stateRef w) (query w) (config w)
    (k + dateReads w) (randomDraws w) (autosave w).

(** The tasks [stamp_tasks] builds when the clock has been read [n] times. *)
Fixpoint stamped (E : Env) (n i : nat) (raw : list (string * string * AgentRole))
  : list Task :=
  match raw with
  | [] => []
  | x :: rest => new_task (clock E n) i x :: stamped E (S n) (S i) rest
  end.

(** A task as the planner issues it. *)
Definition fresh_pending (t : Task) : Prop :=
  task_status t = t_pending /\ result t = None /\ usage t = None.

(** A key whose attempt failed with an error the loop records. *)
Definition failed_over (remote : string -> Params -> Attempt) (params : Params)
    (k : string) : Prop :=
  exists e, try_key remote k params = Throw e /\ retriable e = true.

(** What the attempt with key [k] came to, read off the answer of the
    remote: an error (its own, or the one thrown for a blocked
    response), or a response that is returned. *)
Definition attempt_error (remote : string -> Params -> Attempt) (params : Params)
    (k : string) (e : JsError) : Prop :=
  remote k params = Failed e
  \/ exists r fr, remote k params = Responded r /\ blocked_reason r = Some fr
                  /\ e = new_Error ("Content generation blocked: " ++ fr).

Definition attempt_answer (remote : string -> Params -> Attempt) (params : Params)
    (k : string) (r : Response) : Prop :=
  remote k params = Responded r /\ blocked_reason r = None.

(** The role has no key of its own: the variable is unset or empty. *)
Definition no_own_key (ke : KeyEnv) (r : AgentRole) : Prop :=
  Js.truthy (default "" (roleScopedKeys ke r)) = false.

(** The re-planning call fails: the gateway throws, or the text it
    returns does not parse. *)
Definition replan_attempt_fails (E : Env) (q : string)
    (completedTasks remainingTasks : list Task) (prompts : AgentPrompts) : Prop :=
  let params := mkParams modelId
                  (replanning_prompt q completedTasks remainingTasks prompts)
                  cfg_replan_schema in
  (exists e, call_model E params SUPERVISOR = Throw e)
  \/ (exists r e, call_model E params SUPERVISOR = Return r
                 /\ JSON_parse E (Js.or_else (text r) "[]") = Json_SyntaxError e).


Definition index_in_range (s : AppState) : Prop :=
  (currentTaskIndex s <= length (tasks s))%nat.

(** What every state of a mission satisfies: the index is in range and
    planning only happens on an empty task list. *)
Definition mission_inv (s : AppState) : Prop :=
  index_in_range s /\ (status s = planning -> tasks s = []).

(** What an action may load: a session whose index lies within its own
    task list, as every session the component stored does. *)
Definition loads_in_range (E : Env) (a : Action) : Prop :=
  match a with
  | LoadSession session => index_in_range (merge_loaded E (session_state session))
  | _ => True
  end.

(** A schedule of actions, each followed by its re-render.  Every
    action, a step included, has ended before the next one starts;
    [play] also has the histories in which steps overlap. *)
Definition run (E : Env) (acts : list Action) (w : World) : World :=
  foldl (fun w' a => react E a w') w acts.

(** ** Scenarios

    Concrete environments and worlds on which the statements below are
    exercised. *)

Module Scenario.

Definition keys : KeyEnv :=
  mkKeyEnv (Some "key-A") (Some "key-B, key-C") (fun _ => None).

(** One second between two readings of the clock. *)
Definition clock_1s (n : nat) : Z := 1000 * Z.of_nat n.

Definition ids (n : nat) : string := "log" ++ Js.show_nat n.

Definition ok_response (txt : string) (tokens : Z) : Response :=
  mkResponse (Some txt) None (Some tokens).

Definition blocked_response : Response :=
  mkResponse None (Some [mkCandidate (Some "SAFETY") None]) None.

Definition bad_request : JsError :=
  mkError "ApiError" (Some 400) None (Some "invalid argument") "{}".

(** Every call is answered with a safety block. *)
Definition remote_blocked (_ : string) (_ : Params) : Attempt :=
  Responded blocked_response.

(** Only the first key is answered with a safety block. *)
Definition remote_first_key_blocked (apiKey : string) (_ : Params) : Attempt :=
  if String.eqb apiKey "key-A" then Responded blocked_response
  else Responded (ok_response "fine" 10).

(** Agents answer; the re-planner and the synthesis are refused. *)
Definition remote_agents_only (_ : string) (p : Params) : Attempt :=
  match gen_config p with
  | cfg_tools _ => Responded (ok_response "findings" 120)
  | _ => Failed bad_request
  end.

Definition env_with (remote : string -> Params -> Attempt) : Env :=
  mkEnv clock_1s ids remote (fun _ => Json_array []) keys 0.

Definition E_blocked : Env := env_with remote_blocked.
Definition E_agents_only : Env := env_with remote_agents_only.

Definition some_params : Params := mkParams modelId "hello" cfg_none.

Definition task0 : Task :=
  mkTask "task-1000-0" "Survey" "Collect sources" RESEARCHER t_pending None None.
Definition task1 : Task :=
  mkTask "task-1000-1" "Report" "Write the report" WRITER t_pending None None.

Definition small_budget : RateLimitConfig := mkConfig 1000 1 minutes 0.

Definition state_with (st : Status) (ts : list Task) (used : Z) : AppState :=
  mkState st ts [] 0%nat used 0 0 None DEFAULT_AGENT_PROMPTS.

(** A rendered world whose clock has been read [n] times. *)
Definition world_at (s : AppState) (cfg : RateLimitConfig) (n : nat) : World :=
  mkWorld s s "objective" cfg n 0%nat true.

(** Two pending tasks, a fresh window. *)
Definition w_two_tasks : World :=
  world_at (state_with working [task0; task1] 100) DEFAULT_RATE_LIMIT 5.

(** One pending task. *)
Definition w_one_task : World :=
  world_at (state_with working [task0] 100) DEFAULT_RATE_LIMIT 5.

(** The first task done, two to go. *)
Definition task0_done : Task :=
  mkTask "task-1000-0" "Survey" "Collect sources" RESEARCHER t_completed
    (Some "findings") (Some 120).
Definition task2 : Task :=
  mkTask "task-1000-2" "Review" "Proofread the report" EDITOR t_pending None None.

Definition w_three_tasks : World :=
  world_at (set_currentTaskIndex 1%nat
              (state_with working [task0_done; task1; task2] 100))
    DEFAULT_RATE_LIMIT 5.

(** Nothing left to execute. *)
Definition w_all_done : World :=
  world_at (state_with working [] 100) DEFAULT_RATE_LIMIT 5.

(** 850 of 1000 tokens used, five seconds into a one-minute window. *)
Definition w_over_budget : World :=
  world_at (state_with working [task0] 850) small_budget 5.

(** In cooldown since the threshold was hit; the window that started at 0
    ends at 60000, which is the time of the next reading of the clock. *)
Definition w_cooldown_over : World :=
  world_at (set_nextAllowedQueryTime 60000 (state_with cooldown [task0] 850))
    small_budget 60.

(** A stored session whose prompts object has a single member. *)
Definition partial_prompts : AgentPrompts :=
  <[role_name SUPERVISOR := "Plan briefly."]> ∅.

Definition partial_session : SavedSession :=
  mkSession "session-1" 1 "objective" DEFAULT_RATE_LIMIT
    (mkLoaded (Some paused) (Some [task0]) (Some []) (Some 0%nat) (Some 0) (Some 0)
       (Some 0) (Some None) (Some partial_prompts)).

End Scenario.

(** * Further vocabulary *)

(** ** Vocabulary of the gateway statements *)

(** A key as [parseKeyList] keeps it: not empty, nothing to trim. *)
Definition clean_key (k : string) : Prop := Js.truthy k = true /\ Js.trim k = k.

(** An error that ends the call at once: the global quota is exhausted,
    or it is neither a quota error nor a server error. *)
Definition ends_call (e : JsError) : Prop :=
  isGlobalQuotaExhausted e = true
  \/ (isQuota e = false /\ (error_status e < 500 \/ 600 <= error_status e)).

(** ** Vocabulary of the timer and handler statements *)



(** A status from which [handleResume] leads back to where it was. *)
Definition resumable (s : AppState) : Prop :=
  (status s = working /\ tasks s <> []) \/ (status s = planning /\ tasks s = []).

(** An objective [handleStart] ignores: white space only. *)
Definition blank (q : string) : Prop :=
  Forall (fun c => Js.is_space c = true) (list_ascii_of_string q).

(** A text of ASCII characters only, on which [Js.trim] is
    [String.prototype.trim]; that one also removes the white space
    outside ASCII (U+00A0, U+FEFF and the like). *)
Definition ascii_only (q : string) : Prop :=
  Forall (fun c => (nat_of_ascii c < 128)%nat) (list_ascii_of_string q).

(** ** Vocabulary of the mission invariants *)

(** A completed task carries a non-empty result. *)
Definition has_result (t : Task) : Prop :=
  task_status t = t_completed -> exists r, result t = Some r /\ Js.truthy r = true.

Definition results_present (s : AppState) : Prop := Forall has_result (tasks s).

(** A completed mission has its output and no task left. *)
Definition completed_has_output (s : AppState) : Prop :=
  status s = completed ->
  is_Some (finalOutput s) /\ (length (tasks s) <= currentTaskIndex s)%nat.

(** A completed mission has its final output. *)
Definition output_when_completed (s : AppState) : Prop :=
  status s = completed -> is_Some (finalOutput s).

(** Every action but those that start from a clean or a stored log. *)
Definition keeps_log (a : Action) : Prop :=
  match a with
  | Restart | LoadSession _ => False
  | _ => True
  end.

(** Every action but those that edit or replace the prompts. *)
Definition keeps_prompts (a : Action) : Prop :=
  match a with
  | UpdatePrompt _ _ | ResetPrompts | LoadSession _ => False
  | _ => True
  end.

(** The sessions a schedule loads carry results for their completed tasks. *)
Definition loads_with_results (E : Env) (a : Action) : Prop :=
  match a with
  | LoadSession session => results_present (merge_loaded E (session_state session))
  | _ => True
  end.

(** ** History of sessions ([services/storageService.ts]) *)

(** The item stored under [STORAGE_KEY], as [getSessions] reads it; a
    text that parses is taken to be an array of sessions, as every text
    the service writes is. *)
Inductive HistoryItem :=
| history_missing                        (* no item, or an empty text *)
| history_corrupt                        (* a text that [JSON.parse] rejects *)
| history_sessions (l : list SavedSession).

Definition getSessions (item : HistoryItem) : list SavedSession :=
  match item with
  | history_sessions l => l
  | history_missing | history_corrupt => []
  end.

Definition deleteSession (id : string) (item : HistoryItem)
  : list SavedSession * HistoryItem :=
  let sessions := filter (fun s => session_id s <> id) (getSessions item) in
  (sessions, history_sessions sessions).

Section Storage.

Variable E : Env.

(** Returns the new session and the item written back; the write is
    taken to succeed. *)
Definition saveSession (state : AppState) (q : string) (cfg : RateLimitConfig)
    (item : HistoryItem) : M (SavedSession * HistoryItem) :=
  let sessions := getSessions item in
  let* now := Date_now E in
  let id := "session-" ++ Js.show_Z now in
  let* ts := Date_now E in
  let newSession := mkSession id ts q cfg (stored_state state) in
  let updatedSessions := take 10 (newSession :: sessions) in
  ret (newSession, history_sessions updatedSessions).

(** [handleSave] of the component: the rendered state, query and config. *)
Definition handleSave (item : HistoryItem) : M (SavedSession * HistoryItem) :=
  fun w => saveSession (committed w) (query w) (config w) item w.

End Storage.

(** ** Further scenarios *)

Module Cases.

(** The text "plan" parses to two tasks, any other text to none. *)
Definition plan_items : list (string * string * AgentRole) :=
  [("Survey", "Collect sources", RESEARCHER); ("Report", "Write the report", WRITER)].

Definition parse (txt : string) : JsonResult :=
  if String.eqb txt "plan" then Json_array plan_items else Json_array [].

(** Every call is answered: the planner and the re-planner with a plan,
    the agents with findings, the synthesis with a summary. *)
Definition remote_full (_ : string) (p : Params) : Attempt :=
  match gen_config p with
  | cfg_plan_schema => Responded (Scenario.ok_response "plan" 50)
  | cfg_replan_schema => Responded (Scenario.ok_response "plan" 30)
  | cfg_tools _ => Responded (Scenario.ok_response "findings" 120)
  | cfg_none => Responded (Scenario.ok_response "summary" 40)
  end.

Definition E_full : Env :=
  mkEnv Scenario.clock_1s Scenario.ids remote_full parse Scenario.keys 0.

(** The first key is blocked, the others answer "fine", which parses to
    an empty plan. *)
Definition E_fine : Env := Scenario.env_with Scenario.remote_first_key_blocked.

(** The first key is blocked, the second one is refused. *)
Definition remote_blocked_then_refused (apiKey : string) (_ : Params) : Attempt :=
  if String.eqb apiKey "key-A" then Responded Scenario.blocked_response
  else Failed Scenario.bad_request.

Definition w_planning : World :=
  Scenario.world_at (Scenario.state_with planning [] 0) DEFAULT_RATE_LIMIT 5.

Definition w_paused : World :=
  Scenario.world_at (Scenario.state_with paused [Scenario.task0] 100) DEFAULT_RATE_LIMIT 5.

(** Auto-resume after two minutes. *)
Definition auto_resume_config : RateLimitConfig := mkConfig 100000 1 minutes 2.

Definition w_auto_resume : World :=
  Scenario.world_at (Scenario.state_with working [Scenario.task0] 100) auto_resume_config 5.

Definition w_small_budget : World :=
  Scenario.world_at (Scenario.state_with working [Scenario.task0; Scenario.task1] 100)
    Scenario.small_budget 5.

Definition schedule : list Action := [Step; Pause; Resume; Step].

(** The writer has a key of its own, which has run out of quota. *)
Definition keys_scoped : KeyEnv :=
  mkKeyEnv (Some "key-A") (Some "key-B, key-C")
    (fun r => match r with WRITER => Some "key-W" | _ => None end).

Definition quota_error : JsError :=
  mkError "ApiError" (Some 429) None (Some "Resource exhausted for this key") "{}".

Definition remote_writer_key_spent (apiKey : string) (_ : Params) : Attempt :=
  if String.eqb apiKey "key-W" then Failed quota_error
  else Responded (Scenario.ok_response "fine" 10).

(** Working on the only task, 100 tokens used, and the window that
    started at 0 ran out long ago. *)
Definition w_window_over : World :=
  Scenario.world_at (Scenario.state_with working [Scenario.task0] 100)
    DEFAULT_RATE_LIMIT 100.

(** What the step that starts at [w_window_over] is waiting for. *)
Definition first_call : InFlight :=
  agent_call "objective" (Scenario.state_with working [Scenario.task0] 100) Scenario.task0.

(** What the step is waiting for that starts after the render the first
    one causes. *)
Definition second_call : InFlight :=
  match fst (step_begin Scenario.E_agents_only
               (render (snd (step_begin Scenario.E_agents_only w_window_over)))) with
  | suspended f => f
  | returned _ => first_call
  end.

End Cases.

(** * Properties *)

(** Text builders and arithmetic stay folded while a step is executed
    symbolically. *)
#[local] Arguments call_model : simpl never.
#[local] Arguments Js.show_Z : simpl never.
#[local] Arguments Js.show_nat : simpl never.
#[local] Arguments Js.or_else : simpl never.
#[local] Arguments Js.interp : simpl never.
#[local] Arguments Js.num_or_zero : simpl never.
#[local] Arguments String.append : simpl never.
#[local] Arguments planning_prompt : simpl never.
#[local] Arguments synthesis_prompt : simpl never.
#[local] Arguments final_context : simpl never.
#[local] Arguments prior_context : simpl never.
#[local] Arguments executeAgentTask : simpl never.
#[local] Arguments updateSupervisorPlan : simpl never.
#[local] Arguments superviseFinalOutput : simpl never.
#[local] Arguments percentageUsed_ge_80 : simpl never.
#[local] Arguments periodMs_of : simpl never.
#[local] Arguments step_isQuota : simpl never.
#[local] Arguments role_name : simpl never.
#[local] Arguments Msg.planning_prompt : simpl never.
#[local] Arguments Msg.plan_created : simpl never.
#[local] Arguments Msg.synthesis_prompt : simpl never.
#[local] Arguments Msg.final_delivered : simpl never.
#[local] Arguments Msg.starting_task : simpl never.
#[local] Arguments Msg.agent_prompt : simpl never.
#[local] Arguments Msg.agent_output : simpl never.
#[local] Arguments Msg.task_complete : simpl never.
#[local] Arguments Msg.replanning_prompt : simpl never.
#[local] Arguments Msg.plan_updated : simpl never.
#[local] Arguments Msg.error : simpl never.
#[local] Arguments map_at : simpl never.
#[local] Arguments Z.gtb : simpl never.
#[local] Arguments Z.ltb : simpl never.
#[local] Arguments Z.sub : simpl never.
#[local] Arguments Z.add : simpl never.
#[local] Arguments Z.of_nat : simpl never.
#[local] Arguments Nat.leb : simpl never.
#[local] Arguments take : simpl never.
#[local] Arguments drop : simpl never.

(** ** Lists of tasks *)

Lemma map_at_length (i : nat) (f : Task -> Task) (l : list Task) :
  length (map_at i f l) = length l.
Proof. apply length_imap. Qed.

Lemma map_at_lookup (i : nat) (f : Task -> Task) (l : list Task) (j : nat) :
  map_at i f l !! j = (if decide (j = i) then f else id) <$> l !! j.
Proof.
  unfold map_at. rewrite list_lookup_imap.
  destruct (l !! j); simpl; [|reflexivity]. destruct (decide (j = i)); reflexivity.
Qed.


Lemma map_at_drop (i : nat) (f : Task -> Task) (l : list Task) :
  drop (i + 1) (map_at i f l) = drop (i + 1) l.
Proof.
  apply list_eq. intros j. rewrite !lookup_drop, map_at_lookup.
  destruct (decide (i + 1 + j = i)%nat); [lia|].
  destruct (l !! (i + 1 + j)%nat); reflexivity.
Qed.

Lemma take_prefix_app {A} (i : nat) (l k : list A) :
  (i <= length l)%nat -> take i (take i l ++ k) = take i l.
Proof.
  intros Hi. rewrite take_app_le by (rewrite length_take; lia).
  rewrite take_take. f_equal. lia.
Qed.


Lemma drop_prefix_app {A} (i : nat) (l k : list A) :
  (i <= length l)%nat -> drop i (take i l ++ k) = k.
Proof.
  intros Hi. rewrite drop_app_length'; [reflexivity|]. rewrite length_take. lia.
Qed.

(** ** Stamping raw tasks *)

Lemma mapi_M_stamp (E : Env) (raw : list (string * string * AgentRole)) :
  forall (i : nat) (w : World),
  mapi_M (fun index t => let* now := Date_now E in ret (new_task now index t)) i raw w
  = (stamped E (dateReads w) i raw, advance_clock (length raw) w).
Proof.
  induction raw as [|x raw IH]; intros i w.
  - destruct w; reflexivity.
  - simpl. unfold bind at 1. unfold bind at 1. unfold Date_now at 1. unfold ret at 1.
    unfold bind at 1. rewrite IH. unfold ret, advance_clock. simpl.
    rewrite Nat.add_succ_r. reflexivity.
Qed.

Lemma stamp_tasks_run (E : Env) (raw : list (string * string * AgentRole)) (w : World) :
  stamp_tasks E raw w = (stamped E (dateReads w) 0 raw, advance_clock (length raw) w).
Proof. apply mapi_M_stamp. Qed.

Lemma stamped_raw (E : Env) (raw : list (string * string * AgentRole)) :
  forall n i, map raw_of_task (stamped E n i raw) = raw.
Proof.
  induction raw as [|[[a b] c] raw IH]; intros; simpl; [|rewrite IH]; reflexivity.
Qed.

Lemma stamped_pending (E : Env) (raw : list (string * string * AgentRole)) :
  forall n i, Forall fresh_pending (stamped E n i raw).
Proof.
  induction raw as [|[[a b] c] raw IH]; intros; simpl; constructor; auto.
  repeat split.
Qed.

Lemma stamped_lookup_id (E : Env) (raw : list (string * string * AgentRole)) :
  forall (n i j : nat) (t : Task),
    stamped E n i raw !! j = Some t ->
    task_id t = "task-" ++ Js.show_Z (clock E (n + j)%nat) ++ "-"
                ++ Js.show_nat (i + j)%nat.
Proof.
  induction raw as [|[[a b] c] raw IH]; intros n i j t Hj; [discriminate Hj|].
  destruct j as [|j]; simpl in Hj.
  - injection Hj as <-. rewrite !Nat.add_0_r. reflexivity.
  - rewrite (IH _ _ _ _ Hj).
    replace (S n + j)%nat with (n + S j)%nat by lia.
    replace (S i + j)%nat with (i + S j)%nat by lia. reflexivity.
Qed.

(** ** Symbolic execution of the monadic program *)

Ltac run_step :=
  unfold processNextStep_traced, try_block, planning_phase, synthesis_phase,
    execution_phase, replanning, catch_block, checkRateLimit, addLog, await, bind,
    readRef, readConfig, readQuery, Date_now, Math_random_id, setState,
    removeAutosave, ret in *;
  simpl in *.

Ltac innermost x :=
  lazymatch x with
  | context [if _ then _ else _] => fail
  | context [match _ with _ => _ end] => fail
  | _ => idtac
  end.

(** Split on every test the program makes, innermost first, rewriting
    with the facts [rw] knows. *)
Ltac case_step_using rw :=
  repeat (simpl in *; try discriminate;
    first [ progress rw | progress (rewrite ?stamp_tasks_run in *) |
    match goal with
    | H : context [if ?b then _ else _] |- _ => innermost b; destruct b eqn:?
    | |- context [if ?b then _ else _] => innermost b; destruct b eqn:?
    | H : context [match ?x with _ => _ end] |- _ => innermost x; destruct x eqn:?
    | |- context [match ?x with _ => _ end] => innermost x; destruct x eqn:?
    end ]);
  simpl in *; try discriminate.

Ltac case_step := case_step_using idtac.

Ltac solve_logs :=
  eexists; split; [rewrite <- ?app_assoc; simpl; reflexivity|split; reflexivity].

Ltac finish :=
  repeat first
    [ reflexivity | discriminate | (intros ? [= <-]) | (intros ? [=])
    | split | eexists | assumption ].

(** ** The rate limiter *)

Lemma percentageUsed_ge_80_ratio (tu mt : Z) :
  0 < mt ->
  percentageUsed_ge_80 tu mt = true <-> (8 # 10 <= inject_Z tu / inject_Z mt)%Q.
Proof.
  intros Hmt. unfold percentageUsed_ge_80.
  destruct (Z.eqb_spec mt 0) as [->|_]; [lia|].
  rewrite Qle_bool_iff.
  unfold Qle, Qdiv, Qmult, Qinv, inject_Z; simpl.
  destruct mt as [|p|p]; lia.
Qed.

Lemma percentageUsed_ge_80_zero (mt : Z) : percentageUsed_ge_80 0 mt = false.
Proof.
  unfold percentageUsed_ge_80. destruct (Z.eqb_spec mt 0); [reflexivity|].
  destruct (Qle_bool 80 _) eqn:H; [|reflexivity].
  apply Qle_bool_iff in H. revert H.
  unfold Qle, Qdiv, Qmult, Qinv, inject_Z; simpl. lia.
Qed.

Section RateLimiter.

Variable E : Env.

(** C1. While the window has not elapsed and at least 80% of the budget
    is used, the check before a model call answers no, the status becomes
    [cooldown] and [nextAllowedQueryTime] is [now + (periodMs - elapsed)];
    the step that asked ends there, with no other change. *)
Theorem C1_threshold_denies_and_cools_down (w : World) :
  rendered w ->
  status (committed w) = working \/ status (committed w) = planning ->
  valid_config (config w) ->
  let now := clock E (dateReads w) in
  let periodMs := periodMs_of (config w) in
  let elapsed := now - windowStartTime (committed w) in
  elapsed <= periodMs ->
  (8 # 10 <= inject_Z (tokenUsage (committed w)) / inject_Z (maxTokens (config w)))%Q ->
  fst (checkRateLimit E w) = false
  /\ status (committed (snd (checkRateLimit E w))) = cooldown
  /\ nextAllowedQueryTime (committed (snd (checkRateLimit E w)))
     = now + (periodMs - elapsed)
  /\ committed (snd (checkRateLimit E w))
     = enter_cooldown now (periodMs - elapsed) (committed w)
  /\ processNextStep_traced E w = (None, snd (checkRateLimit E w)).
Proof.
  intros Hr Hst [Hmt _] now periodMs elapsed Hel Hpct.
  apply percentageUsed_ge_80_ratio in Hpct; [|assumption].
  destruct w as [c r q cfg n k a]; unfold rendered in Hr; simpl in *; subst r.
  assert (Hgt : (elapsed >? periodMs) = false) by (rewrite Z.gtb_ltb; apply Z.ltb_ge; lia).
  unfold processNextStep_traced, checkRateLimit, bind, readRef, readConfig, Date_now,
    setState, ret; simpl.
  fold now. fold periodMs. fold elapsed. rewrite Hgt, Hpct. simpl.
  repeat split.
  destruct Hst as [-> | ->]; simpl; fold now; fold periodMs; fold elapsed;
    rewrite Hgt, Hpct; reflexivity.
Qed.

(** The interval never touches the token counter. *)
Lemma timerTick_keeps_tokenUsage (w : World) :
  tokenUsage (committed (snd (timerTick E w))) = tokenUsage (committed w).
Proof.
  destruct w as [c r q cfg n k a]. unfold timerTick. run_step. case_step; reflexivity.
Qed.

End RateLimiter.

(** The scenario of the specification: 850 of 1000 tokens used. *)
Lemma C1_witness :
  let E := Scenario.E_blocked in
  let w := Scenario.w_over_budget in
  fst (checkRateLimit E w) = false
  /\ status (committed (snd (checkRateLimit E w))) = cooldown
  /\ nextAllowedQueryTime (committed (snd (checkRateLimit E w)))
     = clock E (dateReads w)
       + (periodMs_of (config w) - (clock E (dateReads w) - windowStartTime (committed w)))
  /\ committed (snd (checkRateLimit E w))
     = enter_cooldown (clock E (dateReads w))
         (periodMs_of (config w) - (clock E (dateReads w) - windowStartTime (committed w)))
         (committed w)
  /\ processNextStep_traced E w = (None, snd (checkRateLimit E w)).
Proof.
  apply (C1_threshold_denies_and_cools_down Scenario.E_blocked Scenario.w_over_budget).
  - reflexivity.
  - left. reflexivity.
  - split; reflexivity.
  - vm_compute. discriminate.
  - vm_compute. discriminate.
Defined.

(** C7, the code at the scenario of the claim: the window has elapsed
    while the status is [cooldown].  The tick resumes the mission and
    restarts the window but leaves [tokenUsage] at 850, so the check of
    the next step denies again and the mission is back in [cooldown]
    for a whole period. *)
Example C7_tick_keeps_token_usage :
  let E := Scenario.E_blocked in
  let w1 := react E Tick Scenario.w_cooldown_over in
  status (committed w1) = working
  /\ tokenUsage (committed w1) = 850
  /\ windowStartTime (committed w1) = 61000
  /\ status (committed (react E Step w1)) = cooldown
  /\ nextAllowedQueryTime (committed (react E Step w1)) = 121000.
Proof. vm_compute. repeat split. Qed.

(** ** The key pool and the failover loop *)

Lemma set_from_spec {A} `{EqDecision A} (xs seen : list A) :
  NoDup (set_from seen xs)
  /\ forall x, x ∈ set_from seen xs <-> x ∈ xs /\ x ∉ seen.
Proof.
  revert seen; induction xs as [|y xs IH]; intros seen; simpl.
  - split; [constructor|]. intros x; split; [inversion 1|intros [Hx _]; inversion Hx].
  - destruct (decide (y ∈ seen)) as [Hy|Hy].
    + destruct (IH seen) as [Hnd Hin]. split; [assumption|].
      intros x. rewrite Hin, elem_of_cons. split; [tauto|].
      intros [[->|Hx] Hs]; tauto.
    + destruct (IH (y :: seen)) as [Hnd Hin]. split.
      * constructor; [|assumption]. rewrite Hin, elem_of_cons. tauto.
      * intros x. rewrite !elem_of_cons, Hin, elem_of_cons.
        destruct (decide (x = y)) as [->|Hxy]; tauto.
Qed.

Lemma keyPool_NoDup (ke : KeyEnv) : NoDup (keyPool ke).
Proof. apply set_from_spec. Qed.

Lemma API_KEYS_in_pool (ke : KeyEnv) (r : AgentRole) :
  Js.truthy (API_KEYS ke r) = true -> API_KEYS ke r ∈ keyPool ke.
Proof.
  intros Ht. unfold keyPool. apply set_from_spec. split; [|inversion 1].
  apply list_elem_of_filter. split; [assumption|].
  apply elem_of_app. left. unfold API_KEYS_values.
  apply list_elem_of_fmap. exists r. split; [reflexivity|].
  destruct r; set_solver.
Qed.

Lemma primaryKey_in_pool (ke : KeyEnv) (r : AgentRole) :
  module_loads ke = true -> primaryKey ke r ∈ keyPool ke.
Proof.
  intros Hl. unfold primaryKey.
  destruct (Js.truthy (API_KEYS ke r)) eqn:Ht.
  - now apply API_KEYS_in_pool.
  - unfold module_loads in Hl. destruct (keyPool ke) as [|k ks]; [discriminate|].
    simpl. left.
Qed.

Lemma cons_filter_other_Permutation (x : string) (l : list string) :
  NoDup l -> x ∈ l -> x :: filter (fun k => k <> x) l ≡ₚ l.
Proof.
  induction 1 as [|y l Hy Hnd IH]; intros Hx; [inversion Hx|].
  rewrite filter_cons. destruct (decide (y <> x)) as [Hyx|Hyx].
  - apply elem_of_cons in Hx as [->|Hx]; [now destruct Hyx|].
    rewrite Permutation_swap. now rewrite IH.
  - assert (y = x) as -> by (destruct (decide (y = x)); tauto).
    f_equiv. clear IH Hx Hyx Hnd. induction l as [|z l IHl]; [reflexivity|].
    rewrite filter_cons. rewrite not_elem_of_cons in Hy. destruct Hy as [Hzx Hy].
    destruct (decide (z <> x)) as [|Hn]; [|now destruct Hn]. now rewrite (IHl Hy).
Qed.

Lemma executionOrder_Permutation (ke : KeyEnv) (r : AgentRole) :
  module_loads ke = true -> executionOrder ke r ≡ₚ keyPool ke.
Proof.
  intros Hl. apply cons_filter_other_Permutation.
  - apply keyPool_NoDup.
  - now apply primaryKey_in_pool.
Qed.

Section Failover.

Variable remote : string -> Params -> Attempt.
Variable params : Params.

(** The loop on a non-empty order: the keys tried are an initial segment
    of the order, all but the last failed over, and the answer is the
    answer of the last one. *)
Lemma failover_loop_nonempty (rest : list string) :
  forall (k : string) (lastError : option JsError),
  exists pre k' after,
    snd (failover_loop remote params (k :: rest) lastError) = (pre ++ [k'])%list
    /\ k :: rest = ((pre ++ [k']) ++ after)%list
    /\ Forall (failed_over remote params) pre
    /\ fst (failover_loop remote params (k :: rest) lastError)
       = try_key remote k' params
    /\ (forall e, try_key remote k' params = Throw e -> retriable e = true ->
        after = []).
Proof.
  induction rest as [|k2 rest IH]; intros k lastError; simpl.
  - exists [], k, []. destruct (try_key remote k params) as [r|e] eqn:Hk; simpl.
    + repeat split; auto.
    + destruct (retriable e) eqn:Hr; simpl; repeat split; auto.
  - destruct (try_key remote k params) as [r|e] eqn:Hk.
    + exists [], k, (k2 :: rest). simpl. rewrite Hk. repeat split; auto.
      intros e [=].
    + destruct (retriable e) eqn:Hr.
      * destruct (IH k2 (Some e)) as (pre & k' & after & Htr & Hord & Hpre & Hres & Hlast).
        exists (k :: pre), k', after.
        simpl in Htr, Hres.
        destruct (try_key remote k2 params) as [r2|e2] eqn:Hk2.
        -- simpl in *. rewrite Htr, Hord. repeat split; auto.
           constructor; [now exists e|assumption].
        -- destruct (retriable e2) eqn:Hr2.
           ++ destruct (failover_loop remote params rest (Some e2)) as [res tried].
              simpl in *. rewrite Htr, Hord. repeat split; auto.
              constructor; [now exists e|assumption].
           ++ simpl in *. rewrite Htr, Hord. repeat split; auto.
              constructor; [now exists e|assumption].
      * exists [], k, (k2 :: rest). simpl. rewrite Hk. repeat split; auto.
        intros e' [= <-]. congruence.
Qed.

End Failover.

Lemma try_key_Return (remote : string -> Params -> Attempt) (params : Params)
    (k : string) (r : Response) :
  try_key remote k params = Return r <-> attempt_answer remote params k r.
Proof.
  unfold try_key, attempt_answer. destruct (remote k params) as [r0|e0].
  - destruct (blocked_reason r0) as [fr|] eqn:Hb.
    + split; [discriminate|]. intros [[= ->] Hn]. congruence.
    + split; [intros [= ->]; now split|]. intros [[= ->] _]. reflexivity.
  - split; [discriminate|]. intros [[=] _].
Qed.

Lemma try_key_Throw (remote : string -> Params -> Attempt) (params : Params)
    (k : string) (e : JsError) :
  try_key remote k params = Throw e <-> attempt_error remote params k e.
Proof.
  unfold try_key, attempt_error. destruct (remote k params) as [r0|e0].
  - destruct (blocked_reason r0) as [fr|] eqn:Hb.
    + split.
      * intros [= <-]. right. exists r0, fr. repeat split; assumption.
      * intros [[=] | (r & fr' & [= <-] & Hfr & ->)]. congruence.
    + split; [discriminate|].
      intros [[=] | (r & fr' & [= <-] & Hfr & _)]. congruence.
  - split; [intros [= ->]; now left|].
    intros [[= ->] | (r & fr' & [=] & _)]. reflexivity.
Qed.

Lemma sharedKeys_truthy (ke : KeyEnv) (k : string) :
  k ∈ sharedKeys ke -> Js.truthy k = true.
Proof. unfold sharedKeys. rewrite list_elem_of_filter. tauto. Qed.

(** [API_KEYS[preferredRole] || keyPool[0]], by the keys configured. *)
Lemma primaryKey_by_configuration (ke : KeyEnv) (preferredRole : AgentRole) :
  (forall k, roleScopedKeys ke preferredRole = Some k -> Js.truthy k = true ->
             primaryKey ke preferredRole = k)
  /\ (no_own_key ke preferredRole ->
      forall k, head (sharedKeys ke) = Some k -> primaryKey ke preferredRole = k)
  /\ (no_own_key ke preferredRole -> sharedKeys ke = [] ->
      primaryKey ke preferredRole = default "" (head (keyPool ke))).
Proof.
  unfold primaryKey, API_KEYS, no_own_key, Js.or_else. split; [|split].
  - intros k -> Hk. rewrite Hk, Hk. reflexivity.
  - intros Hno k Hk.
    assert (Ht : Js.truthy k = true).
    { apply (sharedKeys_truthy ke). destruct (sharedKeys ke); [discriminate|].
      injection Hk as ->. left. }
    rewrite Hk.
    destruct (roleScopedKeys ke preferredRole) as [own|]; simpl in Hno;
      rewrite ?Hno, ?Ht, ?Ht; now rewrite ?Ht.
  - intros Hno ->.
    destruct (roleScopedKeys ke preferredRole) as [own|]; simpl in Hno |- *;
      rewrite ?Hno; reflexivity.
Qed.

(** C6. One logical call tries the key of the preferred role first and
    then the other keys of the pool, each once, in the order of the pool.
    The first key is the role's own key when it has one, else the first
    shared key, else the first key of the pool.  The keys tried form an
    initial segment of that order: the remote refused every key before
    the last one tried with a recorded (retriable) error, or answered it
    with a blocked response, and the answer of the call is the answer of
    the last key tried: the response of the remote when there is one
    that is not blocked, its error otherwise.  So the loop stops at the
    first success and a failure of the last key is the error that is
    thrown.  When every key fails with a recorded error all of them are
    tried and the last recorded error is thrown; a loop that recorded
    nothing throws the generic exhaustion error.  An error is recorded
    when it does not report the global quota as exhausted and is a quota
    error or has a status from 500 to 599. *)
Theorem C6_failover_order (ke : KeyEnv) (remote : string -> Params -> Attempt)
    (params : Params) (preferredRole : AgentRole) :
  module_loads ke = true ->
  let order := executionOrder ke preferredRole in
  let res := generateContentWithFallback ke remote params preferredRole in
  let tried := snd (generateContentWithFallback_trace ke remote params preferredRole) in
  order = primaryKey ke preferredRole
          :: filter (fun k => k <> primaryKey ke preferredRole) (keyPool ke)
  /\ order ≡ₚ keyPool ke
  /\ (exists pre k after,
        tried = (pre ++ [k])%list
        /\ order = (tried ++ after)%list
        /\ head tried = Some (primaryKey ke preferredRole)
        /\ Forall (failed_over remote params) pre
        /\ res = try_key remote k params
        /\ (forall e, res = Throw e -> retriable e = true -> after = [])
        /\ Forall (fun k' => exists e, attempt_error remote params k' e
                                       /\ retriable e = true) pre
        /\ (forall r, res = Return r <-> attempt_answer remote params k r)
        /\ (forall e, res = Throw e <-> attempt_error remote params k e))
  /\ (Forall (failed_over remote params) order ->
      tried = order
      /\ exists e, res = Throw e /\ retriable e = true
           /\ Some (Throw e) = (fun k => try_key remote k params) <$> last order)
  /\ failover_loop remote params [] None = (Throw exhausted_error, [])
  /\ (forall k, roleScopedKeys ke preferredRole = Some k -> Js.truthy k = true ->
        head tried = Some k)
  /\ (no_own_key ke preferredRole ->
      forall k, head (sharedKeys ke) = Some k -> head tried = Some k)
  /\ (no_own_key ke preferredRole -> sharedKeys ke = [] ->
      head tried = head (keyPool ke))
  /\ (forall e, retriable e = true
                <-> isGlobalQuotaExhausted e = false
                    /\ (isQuota e = true \/ 500 <= error_status e < 600)).
Proof.
  intros Hl order res tried.
  destruct (failover_loop_nonempty remote params (backupKeys ke preferredRole)
              (primaryKey ke preferredRole) None)
    as (pre & k & after & Htr & Hord & Hpre & Hres & Hlast).
  fold (executionOrder ke preferredRole) in Htr, Hord, Hres.
  assert (Htried : tried = (pre ++ [k])%list) by exact Htr.
  assert (Horder : order = (tried ++ after)%list) by (rewrite Htried; exact Hord).
  assert (Hresk : res = try_key remote k params) by exact Hres.
  assert (Hhead : head tried = Some (primaryKey ke preferredRole)).
  { rewrite Htried. unfold order, executionOrder in Hord.
    destruct pre as [|p pre']; simpl in *; congruence. }
  destruct (primaryKey_by_configuration ke preferredRole) as (Hown & Hshared & Hpool).
  split; [reflexivity|]. split; [now apply executionOrder_Permutation|].
  split; [|split; [|split; [reflexivity|split; [|split; [|split]]]]].
  - exists pre, k, after.
    split; [exact Htried|]. split; [exact Horder|]. split; [exact Hhead|].
    split; [exact Hpre|]. split; [exact Hresk|].
    split; [intros e He; apply Hlast; congruence|].
    split; [|split].
    + eapply Forall_impl; [exact Hpre|]. intros k' (e & He & Hre).
      exists e. split; [now apply try_key_Throw|exact Hre].
    + intros r. rewrite Hresk. apply try_key_Return.
    + intros e. rewrite Hresk. apply try_key_Throw.
  - intros Hall.
    assert (Hk : failed_over remote params k).
    { rewrite Forall_forall in Hall. apply Hall. rewrite Horder, Htried.
      apply elem_of_app. left. apply elem_of_app. right. left. }
    destruct Hk as (e & Hke & Hre).
    assert (after = []) as -> by (now apply (Hlast e)).
    rewrite app_nil_r in Horder. split; [congruence|].
    exists e. repeat split; try congruence.
    rewrite Horder, Htried, last_snoc. simpl. congruence.
  - intros k0 Hk0 Ht. rewrite Hhead. f_equal. now apply Hown.
  - intros Hno k0 Hk0. rewrite Hhead. f_equal. now apply Hshared.
  - intros Hno Hnone. rewrite Hhead, (Hpool Hno Hnone).
    unfold module_loads in Hl. destruct (keyPool ke); [discriminate Hl|reflexivity].
  - intros e. unfold retriable, isServer.
    destruct (isGlobalQuotaExhausted e); [split; [discriminate|intros [[=] _]]|].
    rewrite orb_true_iff, andb_true_iff, Z.leb_le, Z.ltb_lt. tauto.
Qed.

(** The writer's own key comes first and is out of quota: the call moves
    on to the first key of the pool, which answers, and tries no other.
    When every key is answered with a blocked response, all four keys
    are tried in that order and the error of the last one is thrown. *)
Lemma C6_witness :
  let ke := Cases.keys_scoped in
  let remote := Cases.remote_writer_key_spent in
  let params := Scenario.some_params in
  let order := executionOrder ke WRITER in
  let res := generateContentWithFallback ke remote params WRITER in
  let tried := snd (generateContentWithFallback_trace ke remote params WRITER) in
  keyPool ke = ["key-A"; "key-W"; "key-B"; "key-C"]
  /\ order = ["key-W"; "key-A"; "key-B"; "key-C"]
  /\ head tried = Some "key-W"
  /\ (exists pre k after,
        tried = (pre ++ [k])%list
        /\ order = (tried ++ after)%list
        /\ Forall (fun k' => exists e, attempt_error remote params k' e
                                       /\ retriable e = true) pre
        /\ (forall r, res = Return r <-> attempt_answer remote params k r))
  /\ tried = ["key-W"; "key-A"]
  /\ res = Return (Scenario.ok_response "fine" 10)
  /\ generateContentWithFallback_trace ke Scenario.remote_blocked params WRITER
     = (Throw (new_Error "Content generation blocked: SAFETY"),
        ["key-W"; "key-A"; "key-B"; "key-C"])
  /\ executionOrder ke CODER = ["key-A"; "key-W"; "key-B"; "key-C"].
Proof.
  destruct (C6_failover_order Cases.keys_scoped Cases.remote_writer_key_spent
              Scenario.some_params WRITER)
    as (_ & _ & (pre & k & after & H1 & H2 & _ & _ & _ & _ & H7 & H8 & _)
        & _ & _ & Hown & _).
  - reflexivity.
  - split; [reflexivity|]. split; [reflexivity|].
    split; [apply (Hown "key-W"); reflexivity|].
    split; [|repeat split; reflexivity].
    exists pre, k, after.
    split; [exact H1|]. split; [exact H2|]. split; [exact H7|exact H8].
Defined.

(** With no text and a first candidate that finished for safety or
    recitation, the attempt throws an error that carries no status, which
    the [catch] block reads as status 500 and therefore records and
    retries with the next key. *)
Lemma blocked_error_retriable (fr : string) :
  fr = "SAFETY" \/ fr = "RECITATION" ->
  retriable (new_Error ("Content generation blocked: " ++ fr)) = true.
Proof. intros [-> | ->]; reflexivity. Qed.

Lemma blocked_attempt_fails_over (remote : string -> Params -> Attempt)
    (params : Params) (k : string) (r : Response) (fr : string) :
  remote k params = Responded r ->
  blocked_reason r = Some fr ->
  failed_over remote params k.
Proof.
  intros Hr Hb. exists (new_Error ("Content generation blocked: " ++ fr)).
  unfold try_key. rewrite Hr, Hb. split; [reflexivity|].
  apply blocked_error_retriable.
  unfold blocked_reason in Hb.
  destruct (negb _); [|discriminate].
  destruct (candidates r) as [[|c cs]|]; try discriminate.
  destruct (finishReason c) as [f|]; [|discriminate].
  destruct (String.eqb f "SAFETY") eqn:H1; simpl in Hb.
  - apply String.eqb_eq in H1. left. congruence.
  - destruct (String.eqb f "RECITATION") eqn:H2; simpl in Hb; [|discriminate].
    apply String.eqb_eq in H2. right. congruence.
Qed.

(** C3, the code at a failing input: the pool is [key-A, key-B, key-C]
    and the answer to [key-A] is blocked for safety.  The block is not
    propagated: a second call is issued with [key-B] and its answer is
    returned. *)
Example C3_safety_block_is_retried :
  let ke := Scenario.keys in
  let remote := Scenario.remote_first_key_blocked in
  keyPool ke = ["key-A"; "key-B"; "key-C"]
  /\ try_key remote "key-A" Scenario.some_params
     = Throw (new_Error "Content generation blocked: SAFETY")
  /\ generateContentWithFallback_trace ke remote Scenario.some_params SUPERVISOR
     = (Return (Scenario.ok_response "fine" 10), ["key-A"; "key-B"]).
Proof. vm_compute. repeat split. Qed.

(** ** One step of the mission *)

Lemma or_else_truthy (a : option string) (b : string) :
  Js.truthy b = true -> Js.truthy (Js.or_else a b) = true.
Proof.
  intros Hb. unfold Js.or_else. destruct a as [s|]; [|assumption].
  destruct (Js.truthy s) eqn:Hs; assumption.
Qed.

Lemma updateSupervisorPlan_fallback (E : Env) (q : string)
    (completedTasks remainingTasks : list Task) (prompts : AgentPrompts) :
  replan_attempt_fails E q completedTasks remainingTasks prompts ->
  updateSupervisorPlan E q completedTasks remainingTasks prompts
  = (Some (map raw_of_task remainingTasks), 0,
     replanning_prompt q completedTasks remainingTasks prompts).
Proof.
  unfold replan_attempt_fails, updateSupervisorPlan.
  intros [[e ->] | (r & e & -> & ->)]; reflexivity.
Qed.

Section Mission.

Variable E : Env.

(** C10. A step that reaches the final synthesis (all tasks executed,
    the rate limiter permits) always ends in [completed] with a
    [finalOutput]: when the model call fails nothing is thrown to the
    step, the output is the error message and the call adds no tokens;
    [base] is the counter after the window check of the step. *)
Theorem C10_synthesis_completes_even_on_failure (w : World) :
  rendered w ->
  status (committed w) = working ->
  (length (tasks (committed w)) <= currentTaskIndex (committed w))%nat ->
  clock E (dateReads w) <= clock E (2 + dateReads w) ->
  fst (checkRateLimit E w) = true ->
  let s := committed w in
  let s' := committed (snd (processNextStep_traced E w)) in
  let call := call_model E (mkParams modelId
                (synthesis_prompt (final_context (tasks s)) (agentPrompts s)) cfg_none)
                SUPERVISOR in
  let base := if clock E (2 + dateReads w) - windowStartTime s >? periodMs_of (config w)
              then 0 else tokenUsage s in
  fst (processNextStep_traced E w) = None
  /\ status s' = completed
  /\ (exists out, finalOutput s' = Some out /\ Js.truthy out = true)
  /\ (forall e, call = Throw e ->
        finalOutput s' = Some ("Error generating final output: " ++ error_toString e)
        /\ tokenUsage s' = base + 0)
  /\ (forall r, call = Return r ->
        tokenUsage s' = base + Js.num_or_zero (totalTokenCount r)).
Proof.
  destruct w as [c r q cfg n k a]. unfold rendered. simpl. intros -> Hst Hlen Hmono Hok.
  apply Nat.leb_le in Hlen.
  run_step. rewrite Hst. simpl. rewrite Hlen. unfold superviseFinalOutput.
  set (call := call_model E _ SUPERVISOR).
  destruct (clock E n - windowStartTime c >? periodMs_of cfg) eqn:H1; simpl in *.
  - assert (H2 : (clock E (S (S n)) - windowStartTime c >? periodMs_of cfg) = true).
    { rewrite Z.gtb_ltb in *. apply Z.ltb_lt in H1. apply Z.ltb_lt. lia. }
    rewrite H2. simpl.
    destruct call as [resp|e] eqn:Hcall; simpl; finish; now apply or_else_truthy.
  - destruct (percentageUsed_ge_80 (tokenUsage c) (maxTokens cfg)) eqn:Hp; simpl in *;
      [discriminate|].
    destruct (clock E (S (S n)) - windowStartTime c >? periodMs_of cfg) eqn:H2; simpl;
      rewrite ?Hp; simpl; destruct call as [resp|e] eqn:Hcall; simpl; finish;
      now apply or_else_truthy.
Qed.

(** C2, as the code has it.  When the [try] block of a step throws,
    the mission is paused and exactly one [error] entry is logged, the
    last of the entries the step appended; the index, the final output
    and the results of the tasks are as before, no token is charged, and
    the only change to the task list is that a task-execution step has
    already marked its task [in-progress]. *)
Theorem C2_failed_step_pauses (w : World) (err : JsError) :
  rendered w ->
  fst (processNextStep_traced E w) = Some err ->
  let s := committed w in
  let s' := committed (snd (processNextStep_traced E w)) in
  status s' = paused
  /\ (exists entries, logs s' = (logs s ++ entries)%list
        /\ log_type <$> last entries = Some log_error
        /\ length (filter (fun e => log_type e = log_error) entries) = 1%nat)
  /\ currentTaskIndex s' = currentTaskIndex s
  /\ finalOutput s' = finalOutput s
  /\ (tokenUsage s' = tokenUsage s \/ tokenUsage s' = 0)
  /\ tasks s' = (if decide (status s = planning) then tasks s
                 else map_at (currentTaskIndex s) (set_task_status t_in_progress)
                        (tasks s)).
Proof.
  destruct w as [c r q cfg n k a]. unfold rendered. simpl. intros -> Herr.
  run_step. unfold createSupervisorPlan, bind, ret in *.
  case_step.
  all: split; [reflexivity|]; split; [solve_logs|]; repeat split; auto.
Qed.



(** C5, as the code has it.  When the task at index [i] is executed
    and the re-planning call that follows fails, nothing is thrown and
    the mission keeps working: the step advances, the first [i + 1] tasks
    are those of the list with task [i] completed, and the remaining
    tasks keep their title, description and agent, in order, re-issued
    as fresh pending tasks under new ids: the id of the task at position
    [j] of the remaining list is [task-<now>-<j>], where [now] is a
    reading of the clock made during the step, one reading per task;
    the only tokens added are those of the executed task, on top of
    the counter after the window check. *)
Theorem C5_failed_replan_keeps_plan (w : World) (t : Task) (res : AgentResult) :
  rendered w ->
  status (committed w) = working ->
  let s := committed w in
  let i := currentTaskIndex s in
  (i + 1 < length (tasks s))%nat ->
  fst (checkRateLimit E w) = true ->
  tasks s !! i = Some t ->
  executeAgentTask E (assignedAgent t) t (prior_context i (tasks s)) (agentPrompts s)
  = Return res ->
  let updated := map_at i (complete_task res) (tasks s) in
  replan_attempt_fails E (query w) (take (i + 1) updated) (drop (i + 1) updated)
    (agentPrompts s) ->
  let w' := snd (processNextStep_traced E w) in
  let s' := committed w' in
  fst (processNextStep_traced E w) = None
  /\ status s' = working
  /\ currentTaskIndex s' = (i + 1)%nat
  /\ take (i + 1) (tasks s') = take (i + 1) updated
  /\ map raw_of_task (drop (i + 1) (tasks s')) = map raw_of_task (drop (i + 1) (tasks s))
  /\ Forall fresh_pending (drop (i + 1) (tasks s'))
  /\ (tokenUsage s' = tokenUsage s + res_usage res + 0
      \/ tokenUsage s' = 0 + res_usage res + 0)
  /\ exists n0 : nat,
       (dateReads w < n0)%nat
       /\ (n0 + length (drop (i + 1) (tasks s)) <= dateReads w')%nat
       /\ drop (i + 1) (tasks s')
          = stamped E n0 0 (map raw_of_task (drop (i + 1) (tasks s)))
       /\ forall j t', drop (i + 1) (tasks s') !! j = Some t' ->
            task_id t' = "task-" ++ Js.show_Z (clock E (n0 + j)%nat) ++ "-"
                         ++ Js.show_nat j.
Proof.
  destruct w as [c r q cfg n k a]. unfold rendered. simpl.
  intros -> Hst Hlen Hok Ht Hexec Hfail.
  apply updateSupervisorPlan_fallback in Hfail.
  assert (Hrem : (0 <? Z.of_nat (length (map_at (currentTaskIndex c) (complete_task res)
                                           (tasks c)))
                      - (Z.of_nat (currentTaskIndex c) + 1)) = true).
  { rewrite map_at_length. apply Z.ltb_lt. lia. }
  assert (Hnl : (length (tasks c) <=? currentTaskIndex c)%nat = false)
    by (apply Nat.leb_gt; lia).
  assert (Hle : (currentTaskIndex c + 1
                 <= length (map_at (currentTaskIndex c) (complete_task res) (tasks c)))%nat)
    by (rewrite map_at_length; lia).
  run_step.
  case_step_using
    ltac:(rewrite ?Hst, ?Hnl, ?Ht, ?Hexec, ?Hrem, ?Hfail, ?percentageUsed_ge_80_zero).
  all: repeat match goal with |- _ /\ _ => split end; auto.
  all: rewrite ?take_prefix_app, ?drop_prefix_app, ?stamped_raw, ?map_at_drop
         by assumption.
  all: auto using stamped_pending.
  all: eexists; split; [|split; [|split; [reflexivity|]]].
  all: try (intros j t' Hj; apply stamped_lookup_id in Hj; exact Hj).
  all: rewrite ?length_map; lia.
Qed.

(** What a step does to the index, by the status it starts from. *)
Lemma step_index (w : World) :
  rendered w ->
  let s := committed w in
  let s' := committed (snd (processNextStep E w)) in
  (status s = working ->
   (currentTaskIndex s <= currentTaskIndex s')%nat
   /\ (index_in_range s -> index_in_range s')
   /\ status s' <> planning)
  /\ (status s = planning ->
      (currentTaskIndex s' = currentTaskIndex s /\ tasks s' = tasks s)
      \/ (currentTaskIndex s' = 0%nat /\ status s' = working))
  /\ (status s <> working -> status s <> planning -> s' = s).
Proof.
  intros Hr. destruct w as [c r q cfg n k a]. unfold rendered in Hr. simpl in *. subst r.
  unfold index_in_range, processNextStep.
  run_step. unfold createSupervisorPlan, bind, ret.
  split; [|split].
  - intros Hst.
    case_step_using ltac:(rewrite ?Hst, ?percentageUsed_ge_80_zero).
    all: repeat split; try lia; try discriminate.
    all: rewrite ?map_at_length, ?length_app, ?length_take, ?map_at_length; try lia.
    all: repeat match goal with
                | H : (_ <=? _)%nat = false |- _ => apply Nat.leb_gt in H
                end; lia.
  - intros Hst.
    case_step_using ltac:(rewrite ?Hst, ?percentageUsed_ge_80_zero).
    all: first [left; split; reflexivity | right; split; reflexivity].
  - intros H1 H2. destruct (status c); simpl; congruence.
Qed.

Lemma react_rendered (a : Action) (w : World) : rendered (react E a w).
Proof. reflexivity. Qed.

(** Only a restart and a load can lower the index. *)
Lemma action_lowers_index (w : World) (a : Action) :
  rendered w ->
  mission_inv (committed w) ->
  (currentTaskIndex (committed (react E a w)) < currentTaskIndex (committed w))%nat ->
  a = Restart \/ exists session, a = LoadSession session.
Proof.
  intros Hr [Hrange Hp] Hlt. pose proof (step_index w Hr) as (Hwork & Hplan & Hother).
  set (s := committed w) in *.
  destruct a; [| | | | | left; reflexivity | right; eexists; reflexivity | |];
    exfalso; revert Hlt; unfold react; simpl.
  - destruct (decide (status s = working)) as [Hw|Hw].
    { destruct (Hwork Hw) as (H1 & _). lia. }
    destruct (decide (status s = planning)) as [Hpl|Hpl].
    { unfold index_in_range in Hrange. rewrite (Hp Hpl) in Hrange. simpl in Hrange.
      destruct (Hplan Hpl) as [[-> _]|[-> _]]; lia. }
    rewrite (Hother Hw Hpl). lia.
  - subst s. destruct w as [c r q cfg n k a]. unfold timerTick. run_step.
    case_step; lia.
  - subst s. destruct w as [c r q cfg n k a]. unfold handlePause. run_step.
    case_step; lia.
  - subst s; lia.
  - subst s; lia.
  - subst s; lia.
  - subst s; lia.
Qed.

(** Every action keeps the invariant of a mission. *)
Lemma action_keeps_inv (w : World) (a : Action) :
  rendered w ->
  mission_inv (committed w) ->
  loads_in_range E a ->
  mission_inv (committed (react E a w)).
Proof.
  intros Hr [Hrange Hp] Hload. pose proof (step_index w Hr) as (Hwork & Hplan & Hother).
  set (s := committed w) in *.
  unfold mission_inv, index_in_range in *.
  destruct a; unfold react; simpl.
  - destruct (decide (status s = working)) as [Hw|Hw].
    { destruct (Hwork Hw) as (_ & H2 & H3). split; [auto|]. intros; contradiction. }
    destruct (decide (status s = planning)) as [Hpl|Hpl].
    { rewrite (Hp Hpl) in Hrange. simpl in Hrange.
      destruct (Hplan Hpl) as [[-> ->]|[-> ->]].
      - rewrite (Hp Hpl). split; [simpl; lia|reflexivity].
      - split; [lia|discriminate]. }
    rewrite (Hother Hw Hpl). split; assumption.
  - subst s. destruct w as [c r q cfg n k a]. unfold timerTick. run_step.
    case_step; split; auto; discriminate.
  - subst s. destruct w as [c r q cfg n k a]. unfold handlePause. run_step.
    case_step; split; auto; discriminate.
  - split; [assumption|discriminate].
  - subst s. destruct w as [c r q cfg n k a]. simpl in *.
    destruct (0 <? length (tasks c))%nat eqn:Hl; simpl; split; auto; try discriminate.
    intros _. apply Nat.ltb_ge in Hl. destruct (tasks c); [reflexivity|simpl in Hl; lia].
  - split; [simpl; lia|reflexivity].
  - unfold handleLoadSession. rewrite andb_false_r. simpl.
    split; [exact Hload|discriminate].
  - split; assumption.
  - split; assumption.
Qed.

Lemma run_keeps_inv (acts : list Action) :
  forall w : World,
  rendered w ->
  mission_inv (committed w) ->
  Forall (loads_in_range E) acts ->
  mission_inv (committed (run E acts w)).
Proof.
  induction acts as [|a acts IH]; intros w Hr Hinv Hacts; [exact Hinv|].
  apply Forall_cons in Hacts as [Ha Hacts]. simpl.
  apply IH; [apply react_rendered| |assumption].
  now apply action_keeps_inv.
Qed.

(** Steps that run in turn.  When every step has ended before the next
    action starts, a step taken while working never lowers the index and
    keeps it within the task list.  Among all the actions only a restart
    and the loading of a session can lower it, and a restart sets it to
    0.  The invariant this relies on holds when a mission starts and is
    kept by every action, so along every schedule of [run] the index
    stays within the task list (a loaded session is assumed to carry an
    index within its own list). *)
Theorem index_monotone_in_turn (w : World) :
  rendered w ->
  let s := committed w in
  (status s = working ->
   (currentTaskIndex s <= currentTaskIndex (committed (react E Step w)))%nat
   /\ (index_in_range s -> index_in_range (committed (react E Step w))))
  /\ (mission_inv s ->
      forall a : Action,
        (currentTaskIndex (committed (react E a w)) < currentTaskIndex s)%nat ->
        a = Restart \/ exists session, a = LoadSession session)
  /\ currentTaskIndex (committed (react E Restart w)) = 0%nat
  /\ mission_inv (committed (react E Restart w))
  /\ (mission_inv s ->
      forall acts : list Action,
        Forall (loads_in_range E) acts ->
        mission_inv (committed (run E acts w))
        /\ index_in_range (committed (run E acts w))).
Proof.
  intros Hr s. pose proof (step_index w Hr) as (Hwork & _ & _).
  fold s in Hwork.
  split; [|split; [|split; [|split]]].
  - intros Hst. destruct (Hwork Hst) as (H1 & H2 & _). split; assumption.
  - intros Hinv a Hlt. now apply (action_lowers_index w a).
  - reflexivity.
  - split; [unfold index_in_range; simpl; lia|reflexivity].
  - intros Hinv acts Hacts.
    assert (H : mission_inv (committed (run E acts w))) by now apply run_keeps_inv.
    split; [exact H|apply H].
Qed.

End Mission.

(** ** Steps that overlap *)

Ltac run_parts :=
  unfold step_in_turn, step_begin, step_resume, resume_try, replanning_from in *;
  run_step.

(** The two parts, run one after the other, are the step. *)
Lemma step_in_turn_is_the_step (E : Env) (w : World) :
  step_in_turn E w = processNextStep_traced E w.
Proof.
  destruct w as [c r q cfg n k a]. run_parts. unfold createSupervisorPlan, bind, ret.
  case_step; reflexivity.
Qed.

(** C8. The index can pass the end of the task list.  The mission is
    working on the last task of its list with tokens on the counter and
    a window that has run out.  The check of the step resets the counter,
    which the pacing effect depends on: after the render the effect arms
    a new timeout, and a second step starts while the call of the first
    is still awaited.  Both steps read index 0, both execute the task,
    and both add one to the index when their call settles. *)
Theorem C8_overlapping_steps_pass_the_end :
  let E := Scenario.E_agents_only in
  let w0 := Cases.w_window_over in
  let w1 := render (snd (step_begin E w0)) in
  let w2 := render (snd (step_begin E w1)) in
  rendered w0
  /\ status (committed w0) = working
  /\ index_in_range (committed w0)
  /\ pacing_rearmed w0 w1 = true
  /\ match fst (step_begin E w0), fst (step_begin E w1) with
     | suspended f1, suspended f2 =>
         let w3 := render (snd (step_resume E f1 w2)) in
         let w4 := render (snd (step_resume E f2 w3)) in
         f1 = Cases.first_call
         /\ f2 = Cases.second_call
         /\ fst (step_resume E f1 w2) = None
         /\ fst (step_resume E f2 w3) = None
         /\ w4 = play E [begin_step; begin_step; settle f1; settle f2] w0
         /\ status (committed w4) = working
         /\ length (tasks (committed w4)) = 1%nat
         /\ currentTaskIndex (committed w3) = 1%nat
         /\ currentTaskIndex (committed w4) = 2%nat
         /\ tokenUsage (committed w4) = 120 + 120
         /\ ~ index_in_range (committed w4)
     | _, _ => False
     end.
Proof.
  vm_compute.
  repeat (split; [first [reflexivity | lia]|]). lia.
Qed.

(** ** The statements on the scenarios *)

(** The synthesis call is refused: the mission completes all the same. *)
Lemma C10_witness :
  let E := Scenario.E_agents_only in
  let w := Scenario.w_all_done in
  let s' := committed (snd (processNextStep_traced E w)) in
  fst (processNextStep_traced E w) = None
  /\ status s' = completed
  /\ finalOutput s' = Some "Error generating final output: ApiError: invalid argument"
  /\ tokenUsage s' = tokenUsage (committed w).
Proof.
  destruct (C10_synthesis_completes_even_on_failure
              Scenario.E_agents_only Scenario.w_all_done)
    as (H1 & H2 & _ & H4 & _).
  - reflexivity.
  - reflexivity.
  - simpl. lia.
  - vm_compute. discriminate.
  - vm_compute. reflexivity.
  - destruct (H4 Scenario.bad_request) as [H5 H6]; [vm_compute; reflexivity|].
    repeat split; assumption.
Defined.

(** Every answer is blocked for safety: the step that executes the only
    task fails. *)
Lemma C2_witness :
  let E := Scenario.E_blocked in
  let w := Scenario.w_one_task in
  let s' := committed (snd (processNextStep_traced E w)) in
  status s' = paused
  /\ currentTaskIndex s' = currentTaskIndex (committed w)
  /\ finalOutput s' = finalOutput (committed w)
  /\ tasks s' = map_at 0 (set_task_status t_in_progress) (tasks (committed w)).
Proof.
  destruct (C2_failed_step_pauses Scenario.E_blocked Scenario.w_one_task
              (new_Error "Content generation blocked: SAFETY"))
    as (H1 & _ & H3 & H4 & _ & H6).
  - reflexivity.
  - vm_compute. reflexivity.
  - repeat split; assumption.
Defined.

(** C2 as stated fails there: the failed step leaves its task
    [in-progress] and appends two log entries, not one. *)
Lemma C2_counterexample :
  let E := Scenario.E_blocked in
  let w := Scenario.w_one_task in
  let s' := committed (snd (processNextStep_traced E w)) in
  fst (processNextStep_traced E w)
    = Some (new_Error "Content generation blocked: SAFETY")
  /\ status s' = paused
  /\ map task_status (tasks (committed w)) = [t_pending]
  /\ map task_status (tasks s') = [t_in_progress]
  /\ map log_type (logs s') = [log_action; log_error]
  /\ s' <> set_status paused
             (append_log (mkLog "log1" 8000 SUPERVISOR
                            "Error: Content generation blocked: SAFETY" log_error None)
                (committed w)).
Proof.
  vm_compute. repeat split. discriminate.
Qed.


(** The first of two tasks is executed and the re-planner is refused. *)
Lemma C5_witness :
  let E := Scenario.E_agents_only in
  let w := Scenario.w_two_tasks in
  let s' := committed (snd (processNextStep_traced E w)) in
  fst (processNextStep_traced E w) = None
  /\ status s' = working
  /\ currentTaskIndex s' = 1%nat
  /\ map raw_of_task (drop 1 (tasks s')) = [("Report", "Write the report", WRITER)]
  /\ Forall fresh_pending (drop 1 (tasks s'))
  /\ exists n0 : nat,
       (dateReads w < n0)%nat
       /\ drop 1 (tasks s') = stamped E n0 0 [("Report", "Write the report", WRITER)].
Proof.
  destruct (C5_failed_replan_keeps_plan Scenario.E_agents_only Scenario.w_two_tasks
              Scenario.task0
              (mkAgentResult "findings" [] 120
                 (agent_prompt RESEARCHER Scenario.task0 "" DEFAULT_AGENT_PROMPTS)))
    as (H1 & H2 & H3 & _ & H5 & H6 & _ & (n0 & H8 & _ & H9 & _)).
  - reflexivity.
  - reflexivity.
  - simpl. lia.
  - vm_compute. reflexivity.
  - reflexivity.
  - vm_compute. reflexivity.
  - left. exists Scenario.bad_request. vm_compute. reflexivity.
  - split; [exact H1|]. split; [exact H2|]. split; [exact H3|]. split; [exact H5|].
    split; [exact H6|]. exists n0. split; [exact H8|exact H9].
Defined.

(** C5 as stated fails there: the remaining task comes back under a new
    id, made of a reading of the clock taken during the step and of its
    position in the remaining list, so the remaining tasks are not the
    ones the state held. *)
Lemma C5_counterexample :
  let E := Scenario.E_agents_only in
  let w := Scenario.w_two_tasks in
  let s := committed w in
  let s' := committed (snd (processNextStep_traced E w)) in
  let updated :=
    map_at 0 (complete_task (mkAgentResult "findings" [] 120
                               (agent_prompt RESEARCHER Scenario.task0 ""
                                  DEFAULT_AGENT_PROMPTS))) (tasks s) in
  call_model E (mkParams modelId
                  (replanning_prompt (query w) (take 1 updated) (drop 1 updated)
                     (agentPrompts s)) cfg_replan_schema) SUPERVISOR
    = Throw Scenario.bad_request
  /\ status s' = working
  /\ map task_id (drop 1 (tasks s)) = ["task-1000-1"]
  /\ (exists n0 : nat,
        (dateReads w < n0)%nat
        /\ map task_id (drop 1 (tasks s'))
           = ["task-" ++ Js.show_Z (clock E n0) ++ "-" ++ Js.show_nat 0])
  /\ map task_id (drop 1 (tasks s')) <> map task_id (drop 1 (tasks s))
  /\ drop 1 (tasks s') <> drop 1 (tasks s).
Proof.
  split; [vm_compute; reflexivity|]. split; [vm_compute; reflexivity|].
  split; [vm_compute; reflexivity|].
  split; [exists 13%nat; split; [vm_compute; lia|vm_compute; reflexivity]|].
  split; vm_compute; discriminate.
Qed.

(** ** Loading a session *)

Lemma DEFAULT_AGENT_PROMPTS_total : total_prompts DEFAULT_AGENT_PROMPTS.
Proof. intros r. destruct r; vm_compute; eexists; reflexivity. Qed.

(** C9, as the code has it.  Both ways of loading a session install
    [merge_loaded] of the stored state, whose prompts are the stored
    object when there is one and the defaults otherwise.  The defaults
    are total, so the result is total exactly when the stored object is
    absent or itself total: a stored object is taken as it is. *)
Theorem C9_loaded_prompts_kept_or_defaulted (E : Env) (session : SavedSession)
    (w : World) :
  let ld := session_state session in
  committed (snd (handleLoadSession E session true w)) = merge_loaded E ld
  /\ (bool_decide (ld_status ld <> Some idle)
      && bool_decide (ld_status ld <> Some completed) = true ->
      committed (snd (resumeAutosave E session true w)) = merge_loaded E ld)
  /\ agentPrompts (merge_loaded E ld)
     = default DEFAULT_AGENT_PROMPTS (ld_agentPrompts ld)
  /\ (ld_agentPrompts ld = None -> total_prompts (agentPrompts (merge_loaded E ld)))
  /\ (forall m, ld_agentPrompts ld = Some m ->
        agentPrompts (merge_loaded E ld) = m
        /\ (total_prompts (agentPrompts (merge_loaded E ld)) <-> total_prompts m)).
Proof.
  intros ld. split; [|split; [|split; [|split]]].
  - unfold handleLoadSession. rewrite andb_false_r. reflexivity.
  - intros Hst. unfold resumeAutosave. fold ld. rewrite Hst. reflexivity.
  - reflexivity.
  - intros Hnone. simpl. rewrite Hnone. apply DEFAULT_AGENT_PROMPTS_total.
  - intros m Hm. simpl. rewrite Hm. split; reflexivity.
Qed.

(** C9 as stated fails on a stored object with a single member: the
    loaded map has no entry for the researcher. *)
Lemma C9_counterexample :
  let E := Scenario.E_blocked in
  let s' := committed (snd (handleLoadSession E Scenario.partial_session true
                              Scenario.w_one_task)) in
  prompt_of (agentPrompts s') SUPERVISOR = Some "Plan briefly."
  /\ prompt_of (agentPrompts s') RESEARCHER = None
  /\ prompt_of DEFAULT_AGENT_PROMPTS RESEARCHER = Some DEFAULT_RESEARCHER_PROMPT
  /\ ~ total_prompts (agentPrompts s').
Proof.
  split; [vm_compute; reflexivity|]. split; [vm_compute; reflexivity|].
  split; [vm_compute; reflexivity|].
  intros Htotal. destruct (Htotal RESEARCHER) as [p Hp]. vm_compute in Hp. discriminate Hp.
Qed.

(** * Further properties *)

(** ** More on the key pool *)

Lemma trimStart_no_space (c : ascii) (s : string) :
  Js.is_space c = false -> Js.trimStart (String c s) = String c s.
Proof. intros H. simpl. rewrite H. reflexivity. Qed.

Lemma trimStart_head (s : string) :
  match Js.trimStart s with
  | EmptyString => True
  | String c _ => Js.is_space c = false
  end.
Proof.
  induction s as [|c s IH]; simpl; [exact I|].
  destruct (Js.is_space c) eqn:Hc; [exact IH|exact Hc].
Qed.

Lemma trimEnd_idempotent (s : string) : Js.trimEnd (Js.trimEnd s) = Js.trimEnd s.
Proof.
  induction s as [|c s IH]; simpl; [reflexivity|].
  destruct (Js.trimEnd s) as [|d r] eqn:Hs.
  - destruct (Js.is_space c) eqn:Hc; simpl; [reflexivity|]. rewrite Hc. reflexivity.
  - simpl in IH |- *. rewrite IH. reflexivity.
Qed.

Lemma trimEnd_head (c : ascii) (s : string) :
  Js.is_space c = false -> exists r, Js.trimEnd (String c s) = String c r.
Proof.
  intros Hc. simpl. destruct (Js.trimEnd s); [rewrite Hc|]; eexists; reflexivity.
Qed.

Lemma trim_idempotent (s : string) : Js.trim (Js.trim s) = Js.trim s.
Proof.
  unfold Js.trim. pose proof (trimStart_head s) as Hh.
  destruct (Js.trimStart s) as [|c t]; [reflexivity|].
  destruct (trimEnd_head c t Hh) as [r Hr]. rewrite Hr.
  rewrite (trimStart_no_space c r Hh), <- Hr. apply trimEnd_idempotent.
Qed.

(** X1. Every key read from the comma-separated list is non-empty and
    already trimmed; an unset variable gives no key. *)
Theorem X1_parseKeyList_clean (raw : option string) :
  parseKeyList None = []
  /\ Forall clean_key (parseKeyList raw).
Proof.
  split; [reflexivity|]. destruct raw as [r|]; [|constructor].
  unfold parseKeyList. apply Forall_forall. intros k Hk.
  apply list_elem_of_filter in Hk as [Ht Hk].
  apply list_elem_of_fmap in Hk as (p & -> & _).
  split; [exact Ht|apply trim_idempotent].
Qed.

(** X2. The pool holds no key twice and no empty key; it holds the key
    of every role that has one and every shared key, and nothing else. *)
Theorem X2_keyPool_well_formed (ke : KeyEnv) :
  NoDup (keyPool ke)
  /\ (forall k, k ∈ keyPool ke -> Js.truthy k = true)
  /\ (forall r, Js.truthy (API_KEYS ke r) = true -> API_KEYS ke r ∈ keyPool ke)
  /\ (forall k, k ∈ sharedKeys ke -> k ∈ keyPool ke)
  /\ (forall k, k ∈ keyPool ke -> (exists r, k = API_KEYS ke r) \/ k ∈ sharedKeys ke).
Proof.
  split; [apply keyPool_NoDup|]. split; [|split; [|split]].
  - intros k Hk. unfold keyPool in Hk. apply set_from_spec in Hk as [Hk _].
    apply list_elem_of_filter in Hk as [Ht _]. exact Ht.
  - apply API_KEYS_in_pool.
  - intros k Hk. unfold keyPool. apply set_from_spec. split; [|inversion 1].
    apply list_elem_of_filter. split.
    + unfold sharedKeys in Hk. apply list_elem_of_filter in Hk as [Ht _]. exact Ht.
    + apply elem_of_app. right. exact Hk.
  - intros k Hk. unfold keyPool in Hk. apply set_from_spec in Hk as [Hk _].
    apply list_elem_of_filter in Hk as [_ Hk].
    apply elem_of_app in Hk as [Hk|Hk]; [left|right; exact Hk].
    unfold API_KEYS_values in Hk. apply list_elem_of_fmap in Hk as (r & -> & _).
    exists r. reflexivity.
Qed.

(** ** More on the failover loop *)

Section FailoverMore.

Variable remote : string -> Params -> Attempt.
Variable params : Params.

Lemma failover_loop_skips (pre : list string) :
  forall (rest : list string) (lastError : option JsError),
  Forall (failed_over remote params) pre ->
  exists lastError',
    failover_loop remote params (pre ++ rest) lastError
    = (fst (failover_loop remote params rest lastError'),
       (pre ++ snd (failover_loop remote params rest lastError'))%list)
    /\ (pre = [] -> lastError' = lastError)
    /\ (forall k, last pre = Some k ->
        exists e, try_key remote k params = Throw e /\ lastError' = Some e).
Proof.
  induction pre as [|k pre IH]; intros rest lastError Hpre.
  - exists lastError. simpl. destruct (failover_loop remote params rest lastError).
    split; [reflexivity|]. split; [reflexivity|]. intros k [=].
  - apply Forall_cons in Hpre as [(e & He & Hr) Hpre].
    destruct (IH rest (Some e) Hpre) as (l' & Hrun & Hnil & Hlast).
    exists l'. simpl. rewrite He, Hr, Hrun. simpl.
    split; [reflexivity|]. split; [intros [=]|].
    intros k' Hk'. destruct pre as [|p pre'].
    + simpl in Hk'. injection Hk' as <-. exists e. split; [exact He|].
      now apply Hnil.
    + apply Hlast. exact Hk'.
Qed.

(** X3. The call returns the answer of the first key that answers:
    when the keys before it all failed over, its response is returned
    and no later key is tried. *)
Theorem X3_first_success_wins (pre after : list string) (k : string) (r : Response)
    (lastError : option JsError) :
  Forall (failed_over remote params) pre ->
  try_key remote k params = Return r ->
  failover_loop remote params (pre ++ k :: after) lastError
  = (Return r, (pre ++ [k])%list).
Proof.
  intros Hpre Hk.
  destruct (failover_loop_skips pre (k :: after) lastError Hpre) as (l' & -> & _).
  simpl. rewrite Hk. reflexivity.
Qed.

(** X4. An error that is not a per-key quota error or a server error,
    and any error that reports the global quota as exhausted (whatever
    its status), is thrown at once: no later key is tried. *)
Theorem X4_fatal_error_ends_call (pre after : list string) (k : string) (e : JsError)
    (lastError : option JsError) :
  Forall (failed_over remote params) pre ->
  try_key remote k params = Throw e ->
  ends_call e ->
  failover_loop remote params (pre ++ k :: after) lastError
  = (Throw e, (pre ++ [k])%list).
Proof.
  intros Hpre Hk Hfatal.
  assert (Hr : retriable e = false).
  { unfold retriable, isServer. destruct Hfatal as [-> | [-> Hs]]; [reflexivity|].
    destruct (isGlobalQuotaExhausted e); [reflexivity|]. simpl.
    destruct Hs as [Hs|Hs].
    - apply andb_false_iff. left. apply Z.leb_gt. exact Hs.
    - apply andb_false_iff. right. apply Z.ltb_ge. exact Hs. }
  destruct (failover_loop_skips pre (k :: after) lastError Hpre) as (l' & -> & _).
  simpl. rewrite Hk, Hr. reflexivity.
Qed.

End FailoverMore.

(** X5. Within one logical call no key is used twice, and only keys of
    the pool are used. *)
Theorem X5_no_key_tried_twice (ke : KeyEnv) (remote : string -> Params -> Attempt)
    (params : Params) (preferredRole : AgentRole) :
  module_loads ke = true ->
  let tried := snd (generateContentWithFallback_trace ke remote params preferredRole) in
  NoDup tried
  /\ (forall k, k ∈ tried -> k ∈ keyPool ke)
  /\ (length tried <= length (keyPool ke))%nat.
Proof.
  intros Hl tried.
  destruct (failover_loop_nonempty remote params (backupKeys ke preferredRole)
              (primaryKey ke preferredRole) None)
    as (pre & k & after & Htr & Hord & _).
  fold (executionOrder ke preferredRole) in Htr, Hord.
  assert (Htried : tried = (pre ++ [k])%list) by exact Htr.
  pose proof (executionOrder_Permutation ke preferredRole Hl) as Hperm.
  rewrite Hord, <- Htried in Hperm.
  assert (Hnd : NoDup (tried ++ after)) by (rewrite Hperm; apply keyPool_NoDup).
  split; [now apply NoDup_app in Hnd as [? _]|]. split.
  - intros x Hx. rewrite <- Hperm. apply elem_of_app. now left.
  - rewrite <- Hperm, length_app. lia.
Qed.

(** ** More on the rate limiter and the timers *)

Section Timers.

Variable E : Env.

(** X6. For a budget of at most 10^15 tokens, where the doubles of the
    program decide the threshold as the exact quotient does, the check
    permits exactly when the window has elapsed or less than 80% of the
    budget is used.  An elapsed window commits the reset (counter 0,
    window started now, [cooldown] turned into [working]); a permit
    inside the window commits nothing; and no outcome touches the tasks,
    the log, the index, the final output or the prompts. *)
Theorem X6_rate_limit_decision (w : World) :
  valid_config (config w) ->
  maxTokens (config w) <= 10 ^ 15 ->
  let now := clock E (dateReads w) in
  let periodMs := periodMs_of (config w) in
  let elapsed := now - windowStartTime (stateRef w) in
  let s := committed w in
  let s' := committed (snd (checkRateLimit E w)) in
  (fst (checkRateLimit E w) = true
   <-> periodMs < elapsed
       \/ (inject_Z (tokenUsage (stateRef w)) / inject_Z (maxTokens (config w)) < 8 # 10)%Q)
  /\ (periodMs < elapsed -> s' = window_reset now s)
  /\ (elapsed <= periodMs -> fst (checkRateLimit E w) = true -> s' = s)
  /\ tasks s' = tasks s /\ logs s' = logs s
  /\ currentTaskIndex s' = currentTaskIndex s
  /\ finalOutput s' = finalOutput s /\ agentPrompts s' = agentPrompts s.
Proof.
  intros [Hmt _] _ now periodMs elapsed s s'.
  pose proof (percentageUsed_ge_80_ratio (tokenUsage (stateRef w)) (maxTokens (config w)) Hmt)
    as Hratio.
  subst s s'. destruct w as [c r q cfg n k a]. simpl in *.
  unfold checkRateLimit, bind, readRef, readConfig, Date_now, setState, ret. simpl.
  fold now. fold periodMs. fold elapsed.
  destruct (elapsed >? periodMs) eqn:Hgt; simpl.
  - rewrite Z.gtb_ltb in Hgt. apply Z.ltb_lt in Hgt.
    repeat split; auto. intros; lia.
  - rewrite Z.gtb_ltb in Hgt. apply Z.ltb_ge in Hgt.
    destruct (percentageUsed_ge_80 (tokenUsage r) (maxTokens cfg)) eqn:Hp; simpl.
    + repeat split; try discriminate; try (intros; lia).
      intros [Hel|Hlt]; [lia|]. apply Qlt_not_le in Hlt.
      destruct Hlt. now apply Hratio.
    + repeat split; try (intros; lia).
      intros _. right. apply Qnot_le_lt. intros Hle. apply Hratio in Hle. discriminate.
Qed.



(** X8. Pausing with auto-resume switched on starts a countdown of
    [autoResumeMinutes] minutes.  A tick before the deadline changes
    nothing; the first tick at or after it resumes the mission as
    [working], whatever it was doing when paused, and starts a new
    window while keeping the tasks, the index and the token counter. *)
Theorem X8_auto_resume (w : World) :
  rendered w ->
  0 < autoResumeMinutes (config w) ->
  let s := committed w in
  let deadline := clock E (dateReads w) + autoResumeMinutes (config w) * 60 * 1000 in
  let paused_at := committed (react E Pause w) in
  let ticked := committed (run E [Pause; Tick] w) in
  paused_at = set_nextAllowedQueryTime deadline (set_status auto_paused s)
  /\ (clock E (1 + dateReads w) < deadline -> ticked = paused_at)
  /\ (deadline <= clock E (1 + dateReads w) ->
      ticked = timer_resume (clock E (2 + dateReads w)) paused_at
      /\ status ticked = working
      /\ tasks ticked = tasks s
      /\ currentTaskIndex ticked = currentTaskIndex s
      /\ tokenUsage ticked = tokenUsage s).
Proof.
  intros Hr Hauto. destruct w as [c r q cfg n k a]. unfold rendered in Hr.
  simpl in *. subst r. apply Z.ltb_lt in Hauto.
  unfold run, react. simpl.
  unfold handlePause, bind, readConfig, Date_now, setState, ret. simpl.
  rewrite Hauto. simpl.
  unfold timerTick, bind, readRef, Date_now, setState, ret. simpl.
  split; [reflexivity|]. split.
  - intros Hlt.
    destruct (Z.max 0 (clock E n + autoResumeMinutes cfg * 60 * 1000 - clock E (S n)) <=? 0)
      eqn:Hm; [|reflexivity].
    apply Z.leb_le in Hm. lia.
  - intros Hge.
    destruct (Z.max 0 (clock E n + autoResumeMinutes cfg * 60 * 1000 - clock E (S n)) <=? 0)
      eqn:Hm.
    + repeat split.
    + apply Z.leb_gt in Hm. lia.
Qed.

(** X9. With auto-resume switched off, pausing (or stopping the
    timer) and resuming brings a working mission with tasks, or a
    planning mission without, back to exactly the state it was in. *)
Theorem X9_pause_resume_round_trip (w : World) :
  rendered w ->
  autoResumeMinutes (config w) <= 0 ->
  resumable (committed w) ->
  committed (run E [Pause; Resume] w) = committed w
  /\ committed (run E [StopTimer; Resume] w) = committed w.
Proof.
  intros Hr Hauto Hres. destruct w as [c r q cfg n k a]. unfold rendered in Hr.
  simpl in *. subst r. apply Z.ltb_ge in Hauto.
  unfold run, react. simpl.
  unfold handlePause, handleStopTimer, handleResume, bind, readConfig, setState, ret.
  simpl. rewrite Hauto. simpl.
  destruct c as [st ts lg ix tu ws nx fo ap]. unfold resumable in Hres. simpl in *.
  destruct Hres as [[-> Hts] | [-> ->]].
  - destruct ts; [contradiction|]. split; reflexivity.
  - split; reflexivity.
Qed.

(** X10. A cooldown does not free the budget.  When the mission sits in
    [cooldown] with at least 80% of the budget used and the interval
    fires at the deadline, the mission resumes with its counter intact
    and a window that starts over; the check of the next step, made
    within one period of that restart, denies again and the mission is
    back in [cooldown]. *)
Theorem X10_cooldown_is_re_entered (w : World) :
  rendered w ->
  status (committed w) = cooldown ->
  valid_config (config w) ->
  (8 # 10 <= inject_Z (tokenUsage (committed w)) / inject_Z (maxTokens (config w)))%Q ->
  nextAllowedQueryTime (committed w) <= clock E (dateReads w) ->
  clock E (2 + dateReads w) - clock E (1 + dateReads w) <= periodMs_of (config w) ->
  let resumed := committed (react E Tick w) in
  let after := committed (run E [Tick; Step] w) in
  status resumed = working
  /\ tokenUsage resumed = tokenUsage (committed w)
  /\ windowStartTime resumed = clock E (1 + dateReads w)
  /\ status after = cooldown
  /\ tokenUsage after = tokenUsage (committed w)
  /\ nextAllowedQueryTime after = clock E (1 + dateReads w) + periodMs_of (config w).
Proof.
  intros Hr Hst [Hmt _] Hpct Hdue Hgap.
  apply percentageUsed_ge_80_ratio in Hpct; [|assumption].
  destruct w as [c r q cfg n k a]. unfold rendered in Hr. simpl in *. subst r.
  assert (Hm : (Z.max 0 (nextAllowedQueryTime c - clock E n) <=? 0) = true)
    by (apply Z.leb_le; lia).
  assert (Hgt : (clock E (S (S n)) - clock E (S n) >? periodMs_of cfg) = false)
    by (rewrite Z.gtb_ltb; apply Z.ltb_ge; lia).
  unfold run, react. simpl. rewrite Hst. simpl.
  unfold timerTick, bind, readRef, Date_now, setState, ret. simpl.
  rewrite Hm. simpl. rewrite Hst. simpl.
  unfold processNextStep, processNextStep_traced, checkRateLimit, bind, readRef,
    readConfig, Date_now, setState, ret. simpl.
  rewrite Hgt, Hpct. simpl. repeat split. lia.
Qed.

End Timers.

(** ** What a step and the other actions keep *)

Lemma executeAgentTask_text (E : Env) (ag : AgentRole) (t : Task) (context : string)
    (prompts : AgentPrompts) (res : AgentResult) :
  executeAgentTask E ag t context prompts = Return res ->
  Js.truthy (res_text res) = true.
Proof.
  unfold executeAgentTask. destruct (call_model E _ ag) as [resp|e]; [|discriminate].
  intros [= <-]. simpl. now apply or_else_truthy.
Qed.

Lemma Forall_map_at (P : Task -> Prop) (i : nat) (f : Task -> Task) (l : list Task) :
  (forall t, l !! i = Some t -> P (f t)) -> Forall P l -> Forall P (map_at i f l).
Proof.
  intros Hf Hl. apply Forall_lookup. intros j t Hj.
  rewrite map_at_lookup in Hj. destruct (l !! j) as [t0|] eqn:Ht0; [|discriminate].
  simpl in Hj. injection Hj as <-. destruct (decide (j = i)) as [->|_].
  - now apply Hf.
  - simpl. eapply Forall_lookup_1; eassumption.
Qed.

Lemma fresh_pending_has_result (t : Task) : fresh_pending t -> has_result t.
Proof. intros (Hs & _) Hc. congruence. Qed.

Lemma stamped_has_result (E : Env) (raw : list (string * string * AgentRole))
    (n i : nat) :
  Forall has_result (stamped E n i raw).
Proof.
  eapply Forall_impl; [apply stamped_pending|]. apply fresh_pending_has_result.
Qed.

Ltac solve_results :=
  intros ?;
  repeat first
    [ assumption
    | apply stamped_has_result
    | apply Forall_app; split
    | apply Forall_take
    | apply Forall_map_at;
      [ intros ? _ ?; first [ discriminate
                            | eexists; split;
                              [reflexivity|eapply executeAgentTask_text; eassumption] ]
      | ] ].

Ltac solve_completed :=
  intros Hc Hs'; first [ discriminate Hs' | exact (Hc Hs')
                       | split; [eexists; reflexivity|apply Nat.leb_le; assumption] ].

Section Frame.

Variable E : Env.

(** One symbolic execution of the step for everything it keeps. *)
Lemma step_frame (w : World) :
  rendered w ->
  let s := committed w in
  let s' := committed (snd (processNextStep E w)) in
  agentPrompts s' = agentPrompts s
  /\ (exists entries, logs s' = (logs s ++ entries)%list)
  /\ (status s' = status s \/ status s' = working \/ status s' = cooldown
      \/ status s' = paused \/ status s' = completed)
  /\ (completed_has_output s -> completed_has_output s')
  /\ (results_present s -> results_present s').
Proof.
  intros Hr. destruct w as [c r q cfg n k a]. unfold rendered in Hr. simpl in *. subst r.
  unfold completed_has_output, results_present, processNextStep.
  run_step. unfold createSupervisorPlan, bind, ret.
  destruct (status c) eqn:Hst.
  all: case_step_using ltac:(rewrite ?Hst, ?percentageUsed_ge_80_zero).
  all: rewrite ?Hst.
  all: split; [reflexivity|].
  all: split; [eexists; rewrite <- ?app_assoc; simpl;
               first [reflexivity | symmetry; apply app_nil_r]|].
  all: split; [auto 6|].
  all: split; [solve_completed|solve_results].
Qed.

End Frame.

Section ActionFrame.

Variable E : Env.

Lemma timerTick_frame (w : World) :
  let s := committed w in
  let s' := committed (snd (timerTick E w)) in
  tasks s' = tasks s /\ logs s' = logs s /\ currentTaskIndex s' = currentTaskIndex s
  /\ finalOutput s' = finalOutput s /\ agentPrompts s' = agentPrompts s
  /\ tokenUsage s' = tokenUsage s
  /\ (status s' = status s \/ status s' = working).
Proof.
  destruct w as [c r q cfg n k a]. unfold timerTick. run_step.
  case_step; repeat split; auto.
Qed.

Lemma handlePause_frame (w : World) :
  let s := committed w in
  let s' := committed (snd (handlePause E w)) in
  tasks s' = tasks s /\ logs s' = logs s /\ currentTaskIndex s' = currentTaskIndex s
  /\ finalOutput s' = finalOutput s /\ agentPrompts s' = agentPrompts s
  /\ tokenUsage s' = tokenUsage s
  /\ (status s' = paused \/ status s' = auto_paused).
Proof.
  destruct w as [c r q cfg n k a]. unfold handlePause. run_step.
  case_step; repeat split; auto.
Qed.

Ltac six := refine (conj _ (conj _ (conj _ (conj _ (conj _ _))))).

Ltac no_new_log := intros _; exists []; symmetry; apply app_nil_r.

(** What every action keeps. *)
Lemma action_frame (w : World) (a : Action) :
  rendered w ->
  let s := committed w in
  let s' := committed (react E a w) in
  (keeps_prompts a -> agentPrompts s' = agentPrompts s)
  /\ (keeps_log a -> exists entries, logs s' = (logs s ++ entries)%list)
  /\ (status s' = error -> status s = error)
  /\ (status s' = idle -> status s = idle)
  /\ (completed_has_output s -> completed_has_output s')
  /\ (results_present s -> loads_with_results E a -> results_present s').
Proof.
  intros Hr s s'. subst s s'. destruct a; unfold react; simpl.
  - pose proof (step_frame E w Hr) as (Hp & Hl & Hs & Hc & Hres). simpl in *.
    six; auto; intros He; rewrite He in Hs;
      destruct Hs as [?|[?|[?|[?|?]]]]; congruence.
  - destruct (bool_decide (status (committed w) = cooldown)
              || bool_decide (status (committed w) = auto_paused)) eqn:Hg; simpl.
    + pose proof (timerTick_frame w) as (Ht & Hl & Hi & Hf & Hp & _ & Hs). simpl in *.
      assert (Hnc : status (committed w) <> completed).
      { intros Hc. rewrite Hc in Hg. discriminate Hg. }
      unfold completed_has_output, results_present. rewrite Ht, Hl, Hi, Hf, Hp.
      six; auto; try no_new_log;
        try (intros He; destruct Hs as [Hs|Hs]; congruence);
        intros _ He; destruct Hs as [Hs|Hs]; congruence.
    + six; auto; no_new_log.
  - pose proof (handlePause_frame w) as (Ht & Hl & Hi & Hf & Hp & _ & Hs). simpl in *.
    unfold completed_has_output, results_present. rewrite Ht, Hl, Hp.
    six; auto; try no_new_log;
      try (intros He; destruct Hs as [Hs|Hs]; congruence);
      intros _ He; destruct Hs as [Hs|Hs]; congruence.
  - unfold completed_has_output, results_present. simpl.
    six; auto; try discriminate; no_new_log.
  - unfold completed_has_output, results_present, handleResume. simpl.
    six; auto; try no_new_log; try (destruct (0 <? _)%nat; discriminate).
  - unfold completed_has_output, results_present. simpl.
    six; auto; try discriminate; try contradiction; try (intros _ _; constructor).
  - unfold completed_has_output, results_present, handleLoadSession.
    rewrite andb_false_r. simpl.
    six; auto; try discriminate; contradiction.
  - unfold completed_has_output, results_present. simpl.
    six; auto; try contradiction; no_new_log.
  - unfold completed_has_output, results_present. simpl.
    six; auto; try contradiction; no_new_log.
Qed.

(** X11. The log is append-only: along any schedule of actions without
    a restart or a load, the log of the start is an initial segment of
    the log of the end. *)
Theorem X11_log_is_append_only (acts : list Action) :
  forall w : World,
  rendered w ->
  Forall keeps_log acts ->
  exists entries, logs (committed (run E acts w)) = (logs (committed w) ++ entries)%list.
Proof.
  induction acts as [|a acts IH]; intros w Hr Hacts.
  - exists []. symmetry. apply app_nil_r.
  - apply Forall_cons in Hacts as [Ha Hacts]. simpl.
    destruct (action_frame w a Hr) as (_ & Hl & _). destruct (Hl Ha) as [e1 He1].
    destruct (IH (react E a w) (react_rendered E a w) Hacts) as [e2 He2].
    exists (e1 ++ e2)%list. rewrite He2, He1, app_assoc. reflexivity.
Qed.

(** X12. No action ever sets the status to [error] or back to [idle]: a
    mission that is not in error never gets there, and one that has left
    [idle] never returns to it. *)
Theorem X12_error_and_idle_are_never_entered (acts : list Action) :
  forall w : World,
  rendered w ->
  (status (committed w) <> error -> status (committed (run E acts w)) <> error)
  /\ (status (committed w) <> idle -> status (committed (run E acts w)) <> idle).
Proof.
  induction acts as [|a acts IH]; intros w Hr; [split; auto|].
  simpl. destruct (action_frame w a Hr) as (_ & _ & He & Hi & _).
  destruct (IH (react E a w) (react_rendered E a w)) as [IHe IHi].
  split; intros H; [apply IHe|apply IHi]; intros H'; apply H; auto.
Qed.


(** X14. A task marked [completed] always carries a non-empty result:
    every action keeps this (a loaded session is assumed to satisfy it),
    so it holds along every schedule. *)
Theorem X14_completed_tasks_have_results (acts : list Action) :
  forall w : World,
  rendered w ->
  results_present (committed w) ->
  Forall (loads_with_results E) acts ->
  results_present (committed (run E acts w)).
Proof.
  induction acts as [|a acts IH]; intros w Hr Hinv Hacts; [exact Hinv|].
  apply Forall_cons in Hacts as [Ha Hacts].
  simpl. apply IH; [apply react_rendered| |assumption].
  destruct (action_frame w a Hr) as (_ & _ & _ & _ & _ & Hres). now apply Hres.
Qed.

(** X15. The prompts are configuration: no step, timer, pause, resume
    or restart changes them; only an edit, a reset or a load does. *)
Theorem X15_prompts_survive (acts : list Action) :
  forall w : World,
  rendered w ->
  Forall keeps_prompts acts ->
  agentPrompts (committed (run E acts w)) = agentPrompts (committed w).
Proof.
  induction acts as [|a acts IH]; intros w Hr Hacts; [reflexivity|].
  apply Forall_cons in Hacts as [Ha Hacts]. simpl.
  rewrite (IH (react E a w) (react_rendered E a w) Hacts).
  destruct (action_frame w a Hr) as (Hp & _). now apply Hp.
Qed.

End ActionFrame.

(** ** Histories in which steps overlap *)

Section Histories.

Variable E : Env.

Ltac solve_output :=
  unfold output_when_completed in *; simpl in *;
  repeat match goal with
         | |- context [decide ?P] => destruct (decide P)
         end;
  simpl in *;
  first [ assumption | discriminate | (intros _; eexists; reflexivity)
        | (intros; discriminate) | congruence | auto ].

Lemma begin_keeps_output (w : World) :
  output_when_completed (committed w) ->
  output_when_completed (committed (snd (step_begin E w))).
Proof.
  destruct w as [c r q cfg n k a]. simpl. intros Hc.
  run_parts. case_step. all: solve_output.
Qed.

Lemma resume_keeps_output (f : InFlight) (w : World) :
  output_when_completed (committed w) ->
  output_when_completed (committed (snd (step_resume E f w))).
Proof.
  destruct w as [c r q cfg n k a]. simpl. intros Hc.
  destruct f as [q0 current|current|q0 current task].
  all: run_parts; unfold createSupervisorPlan, bind, ret.
  all: case_step. all: solve_output.
Qed.

Lemma action_keeps_output (a : Action) (w : World) :
  output_when_completed (committed w) ->
  output_when_completed (committed (snd (perform E a w))).
Proof.
  intros Hc. destruct a; simpl.
  - unfold processNextStep, bind, ret.
    rewrite <- step_in_turn_is_the_step. unfold step_in_turn, bind, ret.
    pose proof (begin_keeps_output w Hc) as Hb.
    destruct (step_begin E w) as [[err|f] w1]; simpl in *; [exact Hb|].
    pose proof (resume_keeps_output f w1 Hb) as Hs.
    destruct (step_resume E f w1) as [err w2]. exact Hs.
  - destruct w as [c r q cfg n k a]. unfold timerTick. run_step. case_step; solve_output.
  - destruct w as [c r q cfg n k a]. unfold handlePause. run_step. case_step; solve_output.
  - destruct w as [c r q cfg n k a]. unfold handleStopTimer. run_step. solve_output.
  - destruct w as [c r q cfg n k a]. unfold handleResume. run_step. case_step; solve_output.
  - destruct w as [c r q cfg n k a]. unfold handleRestart. run_step. solve_output.
  - destruct w as [c r q cfg n k a]. unfold handleLoadSession, setQuery, setConfig.
    run_step. case_step; solve_output.
  - destruct w as [c r q cfg n k a]. unfold updatePrompt. run_step. solve_output.
  - destruct w as [c r q cfg n k a]. unfold resetPrompts. run_step. solve_output.
Qed.

Lemma occur_keeps_output (ev : Event) (w : World) :
  output_when_completed (committed w) ->
  output_when_completed (committed (occur E ev w)).
Proof.
  intros Hc. destruct ev as [a| |f]; simpl.
  - now apply action_keeps_output.
  - now apply begin_keeps_output.
  - now apply resume_keeps_output.
Qed.

(** X13. Whenever the status is [completed] the final output is set.
    Every update of the program keeps this, so it holds along every
    history of actions, starts of steps and settled calls, also when
    steps overlap and whatever state a settling step had read. *)
Theorem X13_completed_has_output (evs : list Event) :
  forall w : World,
  output_when_completed (committed w) ->
  output_when_completed (committed (play E evs w)).
Proof.
  induction evs as [|ev evs IH]; intros w Hc; [exact Hc|].
  simpl. apply IH. now apply occur_keeps_output.
Qed.

End Histories.

(** ** What a successful step commits *)

Lemma stamped_length (E : Env) (raw : list (string * string * AgentRole)) :
  forall n i, length (stamped E n i raw) = length raw.
Proof. induction raw as [|x raw IH]; intros; simpl; [|rewrite IH]; reflexivity. Qed.

Section Accounting.

Variable E : Env.

(** The planning step on a call that answers with a JSON array. *)
Lemma planning_step_summary (w : World) (resp : Response)
    (raw : list (string * string * AgentRole)) :
  rendered w ->
  status (committed w) = planning ->
  fst (checkRateLimit E w) = true ->
  let s := committed w in
  call_model E (mkParams modelId (planning_prompt (query w) (agentPrompts s))
                  cfg_plan_schema) SUPERVISOR = Return resp ->
  JSON_parse E (Js.or_else (text resp) "[]") = Json_array raw ->
  let s' := committed (snd (processNextStep_traced E w)) in
  let used := Js.num_or_zero (totalTokenCount resp) in
  fst (processNextStep_traced E w) = None
  /\ status s' = working
  /\ currentTaskIndex s' = 0%nat
  /\ map raw_of_task (tasks s') = raw
  /\ Forall fresh_pending (tasks s')
  /\ (tokenUsage s' = tokenUsage s + used \/ tokenUsage s' = 0 + used)
  /\ finalOutput s' = finalOutput s
  /\ map log_type (drop (length (logs s)) (logs s')) = [log_plan; log_info; log_plan].
Proof.
  destruct w as [c r q cfg n k a]. unfold rendered. simpl.
  intros -> Hst Hok Hcall Hparse.
  run_step. unfold createSupervisorPlan, bind, ret.
  case_step_using ltac:(rewrite ?Hst, ?Hcall, ?Hparse).
  all: repeat split; auto using stamped_raw, stamped_pending.
  all: rewrite <- ?app_assoc; rewrite ?drop_app_length; reflexivity.
Qed.

(** X16. A planning step whose call answers with a JSON array installs
    exactly the tasks of that array, in order, as fresh pending tasks,
    starts at index 0 in status [working] and adds the tokens of the
    call; nothing is thrown. *)
Theorem X16_planning_installs_plan (w : World) (resp : Response)
    (raw : list (string * string * AgentRole)) :
  rendered w ->
  status (committed w) = planning ->
  fst (checkRateLimit E w) = true ->
  let s := committed w in
  call_model E (mkParams modelId (planning_prompt (query w) (agentPrompts s))
                  cfg_plan_schema) SUPERVISOR = Return resp ->
  JSON_parse E (Js.or_else (text resp) "[]") = Json_array raw ->
  let s' := committed (snd (processNextStep_traced E w)) in
  let used := Js.num_or_zero (totalTokenCount resp) in
  fst (processNextStep_traced E w) = None
  /\ status s' = working
  /\ currentTaskIndex s' = 0%nat
  /\ map raw_of_task (tasks s') = raw
  /\ Forall fresh_pending (tasks s')
  /\ (tokenUsage s' = tokenUsage s + used \/ tokenUsage s' = 0 + used)
  /\ finalOutput s' = finalOutput s.
Proof.
  intros Hr Hst Hok s Hcall Hparse.
  destruct (planning_step_summary w resp raw Hr Hst Hok Hcall Hparse)
    as (H1 & H2 & H3 & H4 & H5 & H6 & H7 & _).
  repeat split; assumption.
Qed.

(** X17. Executing the last task of the list: the task is completed
    with the text and the token count of the call, every other task is
    unchanged, the index reaches the end of the list, only the tokens of
    the call are added and the re-planner is not consulted. *)
Theorem X17_last_task_needs_no_replan (w : World) (t : Task) (res : AgentResult) :
  rendered w ->
  status (committed w) = working ->
  let s := committed w in
  let i := currentTaskIndex s in
  (i + 1 = length (tasks s))%nat ->
  fst (checkRateLimit E w) = true ->
  tasks s !! i = Some t ->
  executeAgentTask E (assignedAgent t) t (prior_context i (tasks s)) (agentPrompts s)
  = Return res ->
  let s' := committed (snd (processNextStep_traced E w)) in
  fst (processNextStep_traced E w) = None
  /\ status s' = working
  /\ tasks s' = map_at i (complete_task res) (tasks s)
  /\ tasks s' !! i = Some (complete_task res t)
  /\ currentTaskIndex s' = length (tasks s')
  /\ (tokenUsage s' = tokenUsage s + res_usage res + 0
      \/ tokenUsage s' = 0 + res_usage res + 0)
  /\ map log_type (drop (length (logs s)) (logs s'))
     = [log_action; log_info; log_info; log_result].
Proof.
  destruct w as [c r q cfg n k a]. unfold rendered. simpl.
  intros -> Hst Hlen Hok Ht Hexec.
  assert (Hrem : (0 <? Z.of_nat (length (map_at (currentTaskIndex c) (complete_task res)
                                           (tasks c)))
                      - (Z.of_nat (currentTaskIndex c) + 1)) = false).
  { rewrite map_at_length. apply Z.ltb_ge. lia. }
  assert (Hnl : (length (tasks c) <=? currentTaskIndex c)%nat = false)
    by (apply Nat.leb_gt; lia).
  run_step.
  case_step_using ltac:(rewrite ?Hst, ?Hnl, ?Ht, ?Hexec, ?Hrem).
  all: repeat split; auto.
  all: rewrite ?map_at_length, ?map_at_lookup, ?Ht; simpl; auto.
  all: try (destruct (decide (currentTaskIndex c = currentTaskIndex c)); congruence).
  all: rewrite <- ?app_assoc; rewrite ?drop_app_length; reflexivity.
Qed.

Lemma updateSupervisorPlan_array (q : string) (completedTasks remainingTasks : list Task)
    (prompts : AgentPrompts) (resp : Response) (raw : list (string * string * AgentRole)) :
  call_model E (mkParams modelId
                  (replanning_prompt q completedTasks remainingTasks prompts)
                  cfg_replan_schema) SUPERVISOR = Return resp ->
  JSON_parse E (Js.or_else (text resp) "[]") = Json_array raw ->
  updateSupervisorPlan E q completedTasks remainingTasks prompts
  = (Some raw, Js.num_or_zero (totalTokenCount resp),
     replanning_prompt q completedTasks remainingTasks prompts).
Proof. intros Hc Hp. unfold updateSupervisorPlan. rewrite Hc, Hp. reflexivity. Qed.

(** X18. When the re-planner answers with a JSON array, that array
    replaces everything after the executed task: the new task list is
    the completed prefix followed by the tasks of the array as fresh
    pending tasks, however many they are (none, or more than the five
    the prompt allows), and the tokens of both calls are added. *)
Theorem X18_replan_replaces_remaining (w : World) (t : Task) (res : AgentResult)
    (resp : Response) (raw : list (string * string * AgentRole)) :
  rendered w ->
  status (committed w) = working ->
  let s := committed w in
  let i := currentTaskIndex s in
  (i + 1 < length (tasks s))%nat ->
  fst (checkRateLimit E w) = true ->
  tasks s !! i = Some t ->
  executeAgentTask E (assignedAgent t) t (prior_context i (tasks s)) (agentPrompts s)
  = Return res ->
  let updated := map_at i (complete_task res) (tasks s) in
  call_model E (mkParams modelId
                  (replanning_prompt (query w) (take (i + 1) updated)
                     (drop (i + 1) updated) (agentPrompts s))
                  cfg_replan_schema) SUPERVISOR = Return resp ->
  JSON_parse E (Js.or_else (text resp) "[]") = Json_array raw ->
  let used := Js.num_or_zero (totalTokenCount resp) in
  let s' := committed (snd (processNextStep_traced E w)) in
  fst (processNextStep_traced E w) = None
  /\ status s' = working
  /\ currentTaskIndex s' = (i + 1)%nat
  /\ take (i + 1) (tasks s') = take (i + 1) updated
  /\ map raw_of_task (drop (i + 1) (tasks s')) = raw
  /\ Forall fresh_pending (drop (i + 1) (tasks s'))
  /\ length (tasks s') = (i + 1 + length raw)%nat
  /\ (tokenUsage s' = tokenUsage s + res_usage res + used
      \/ tokenUsage s' = 0 + res_usage res + used).
Proof.
  destruct w as [c r q cfg n k a]. unfold rendered. simpl.
  intros -> Hst Hlen Hok Ht Hexec Hcall Hparse.
  pose proof (updateSupervisorPlan_array _ _ _ _ _ _ Hcall Hparse) as Hplan.
  assert (Hrem : (0 <? Z.of_nat (length (map_at (currentTaskIndex c) (complete_task res)
                                           (tasks c)))
                      - (Z.of_nat (currentTaskIndex c) + 1)) = true).
  { rewrite map_at_length. apply Z.ltb_lt. lia. }
  assert (Hnl : (length (tasks c) <=? currentTaskIndex c)%nat = false)
    by (apply Nat.leb_gt; lia).
  assert (Hle : (currentTaskIndex c + 1
                 <= length (map_at (currentTaskIndex c) (complete_task res) (tasks c)))%nat)
    by (rewrite map_at_length; lia).
  clear Hcall Hparse.
  run_step.
  case_step_using
    ltac:(rewrite ?Hst, ?Hnl, ?Ht, ?Hexec, ?Hrem, ?Hplan, ?percentageUsed_ge_80_zero).
  all: repeat split; auto.
  all: rewrite ?take_prefix_app, ?drop_prefix_app, ?stamped_raw by assumption.
  all: auto using stamped_pending.
  all: rewrite length_app, length_take, map_at_length, stamped_length; lia.
Qed.

(** The step that runs the final synthesis. *)
Lemma synthesis_step_summary (w : World) :
  rendered w ->
  status (committed w) = working ->
  (length (tasks (committed w)) <= currentTaskIndex (committed w))%nat ->
  clock E (dateReads w) <= clock E (2 + dateReads w) ->
  fst (checkRateLimit E w) = true ->
  let s := committed w in
  let s' := committed (snd (processNextStep_traced E w)) in
  status s' = completed
  /\ tasks s' = tasks s
  /\ is_Some (finalOutput s')
  /\ map log_type (drop (length (logs s)) (logs s')) = [log_info; log_info; log_result].
Proof.
  destruct w as [c r q cfg n k a]. unfold rendered. simpl. intros -> Hst Hlen Hmono Hok.
  apply Nat.leb_le in Hlen.
  run_step. rewrite Hst. simpl. rewrite Hlen.
  destruct (superviseFinalOutput E _ _) as [[out used] prompt].
  destruct (clock E n - windowStartTime c >? periodMs_of cfg) eqn:H1; simpl in *.
  - assert (H2 : (clock E (S (S n)) - windowStartTime c >? periodMs_of cfg) = true).
    { rewrite Z.gtb_ltb in *. apply Z.ltb_lt in H1. apply Z.ltb_lt. lia. }
    rewrite H2. simpl. repeat split; [eexists; reflexivity|].
    rewrite <- ?app_assoc, drop_app_length. reflexivity.
  - destruct (percentageUsed_ge_80 (tokenUsage c) (maxTokens cfg)) eqn:Hp; simpl in *;
      [discriminate|].
    destruct (clock E (S (S n)) - windowStartTime c >? periodMs_of cfg) eqn:H2; simpl;
      rewrite ?Hp; simpl; (repeat split; [eexists; reflexivity|]);
      rewrite <- ?app_assoc, drop_app_length; reflexivity.
Qed.

Lemma committed_react_Step (w : World) :
  committed (react E Step w) = committed (snd (processNextStep_traced E w)).
Proof.
  unfold react. simpl. unfold processNextStep, bind, ret.
  destruct (processNextStep_traced E w). reflexivity.
Qed.

(** X19. An empty plan leads straight to the synthesis: after a
    planning step that installs no task, the next step (permitted by the
    rate limiter) completes the mission with a final output; no task is
    ever started, so the two steps log no [action] entry. *)
Theorem X19_empty_plan_completes (w : World) (resp : Response) :
  rendered w ->
  status (committed w) = planning ->
  fst (checkRateLimit E w) = true ->
  let s := committed w in
  call_model E (mkParams modelId (planning_prompt (query w) (agentPrompts s))
                  cfg_plan_schema) SUPERVISOR = Return resp ->
  JSON_parse E (Js.or_else (text resp) "[]") = Json_array [] ->
  let w1 := react E Step w in
  fst (checkRateLimit E w1) = true ->
  clock E (dateReads w1) <= clock E (2 + dateReads w1) ->
  let s2 := committed (react E Step w1) in
  status (committed w1) = working
  /\ tasks (committed w1) = []
  /\ status s2 = completed
  /\ tasks s2 = []
  /\ is_Some (finalOutput s2)
  /\ map log_type (drop (length (logs (committed w1))) (logs s2))
     = [log_info; log_info; log_result]
  /\ map log_type (drop (length (logs s)) (logs (committed w1)))
     = [log_plan; log_info; log_plan].
Proof.
  intros Hr Hst Hok s Hcall Hparse w1 Hok1 Hmono s2.
  destruct (planning_step_summary w resp [] Hr Hst Hok Hcall Hparse)
    as (_ & H2 & H3 & H4 & _ & _ & _ & H8).
  assert (Hw1 : committed w1 = committed (snd (processNextStep_traced E w)))
    by apply committed_react_Step.
  assert (Ht1 : tasks (committed w1) = []).
  { rewrite Hw1. destruct (tasks (committed (processNextStep_traced E w).2));
      [reflexivity|discriminate H4]. }
  assert (Hs2 : s2 = committed (snd (processNextStep_traced E w1)))
    by apply committed_react_Step.
  destruct (synthesis_step_summary w1) as (G1 & G2 & G3 & G4).
  - apply react_rendered.
  - rewrite Hw1. exact H2.
  - rewrite Ht1. simpl. lia.
  - exact Hmono.
  - exact Hok1.
  - split; [rewrite Hw1; exact H2|]. split; [exact Ht1|].
    split; [rewrite Hs2; exact G1|]. split; [rewrite Hs2, G2; exact Ht1|].
    split; [rewrite Hs2; exact G3|]. split; [rewrite Hs2; exact G4|].
    rewrite Hw1. exact H8.
Qed.

End Accounting.

(** ** The history of sessions *)

Section History.

Variable E : Env.

(** X20. Saving puts the new session first and keeps at most ten: the
    older sessions follow in their order and only the oldest ones are
    dropped.  A missing or unreadable history counts as empty. *)
Theorem X20_save_is_bounded_newest_first (state : AppState) (q : string)
    (cfg : RateLimitConfig) (item : HistoryItem) (w : World) :
  let old := getSessions item in
  let saved := fst (fst (saveSession E state q cfg item w)) in
  let new := getSessions (snd (fst (saveSession E state q cfg item w))) in
  new = saved :: take 9 old
  /\ (length new <= 10)%nat
  /\ length new = Nat.min 10 (S (length old))
  /\ ((length old < 10)%nat -> new = saved :: old)
  /\ (item = history_missing \/ item = history_corrupt -> new = [saved])
  /\ session_query saved = q /\ session_config saved = cfg
  /\ session_state saved = stored_state state.
Proof.
  intros old saved new. subst old saved new.
  unfold saveSession, bind, Date_now, ret. simpl.
  split; [reflexivity|]. split; [|split; [|split; [|split]]].
  - rewrite length_take. lia.
  - rewrite length_take. reflexivity.
  - intros Hlt. rewrite take_ge by (simpl; lia). reflexivity.
  - intros [-> | ->]; reflexivity.
  - repeat split.
Qed.

(** X21. Deleting removes exactly the sessions with the given id and
    keeps the others in their order; deleting again changes nothing. *)
Theorem X21_delete_removes_exactly_the_id (id : string) (item : HistoryItem) :
  let old := getSessions item in
  let kept := fst (deleteSession id item) in
  getSessions (snd (deleteSession id item)) = kept
  /\ (forall s, s ∈ kept <-> s ∈ old /\ session_id s <> id)
  /\ kept `sublist_of` old
  /\ deleteSession id (snd (deleteSession id item)) = deleteSession id item
  /\ (Forall (fun s => session_id s <> id) old -> kept = old).
Proof.
  intros old kept. subst old kept. unfold deleteSession. simpl.
  split; [reflexivity|]. split; [|split; [|split]].
  - intros s. rewrite list_elem_of_filter. tauto.
  - apply sublist_filter.
  - rewrite list_filter_filter.
    assert (Hsame : filter (fun s => session_id s <> id /\ session_id s <> id)
                      (getSessions item)
                    = filter (fun s => session_id s <> id) (getSessions item)).
    { apply list_filter_iff. intros s. tauto. }
    rewrite Hsame. reflexivity.
  - intros Hall. induction Hall as [|s l Hs _ IH]; [reflexivity|].
    rewrite filter_cons_True by exact Hs. now rewrite IH.
Qed.

Lemma handleLoadSession_confirmed (session : SavedSession) (w : World) :
  handleLoadSession E session true w
  = (tt, mkWorld (merge_loaded E (session_state session)) (stateRef w)
           (session_query session) (session_config session)
           (dateReads w) (randomDraws w) (autosave w)).
Proof.
  unfold handleLoadSession. simpl negb. rewrite andb_false_r. reflexivity.
Qed.

Lemma merge_loaded_stored (s : AppState) :
  merge_loaded E (stored_state s) = set_status paused s.
Proof. destruct s. reflexivity. Qed.

(** X22. Saving and loading are inverse up to the status: a session
    saved from a state and then loaded restores the query, the config
    and every member of the state, with the status set to [paused]. *)
Theorem X22_save_then_load_restores (item : HistoryItem) (w w2 : World) :
  let saved := fst (fst (handleSave E item w)) in
  let loaded := snd (handleLoadSession E saved true w2) in
  committed loaded = set_status paused (committed w)
  /\ query loaded = query w
  /\ config loaded = config w
  /\ head (getSessions (snd (fst (handleSave E item w)))) = Some saved.
Proof.
  intros saved loaded. subst saved loaded.
  rewrite handleLoadSession_confirmed.
  unfold handleSave, saveSession, bind, Date_now, ret. simpl.
  rewrite merge_loaded_stored. repeat split.
Qed.

(** X23. Loading is idempotent and overrides whatever was there:
    loading the same session twice gives the same world as loading it
    once, and the state after a load does not depend on the state
    before it; the status is always [paused].  A load that the user
    declines while a mission is active changes nothing. *)
Theorem X23_load_is_idempotent (session : SavedSession) (w w2 : World) :
  let once := snd (handleLoadSession E session true w) in
  snd (handleLoadSession E session true once) = once
  /\ committed (snd (handleLoadSession E session true w2)) = committed once
  /\ status (committed once) = paused
  /\ query once = session_query session
  /\ config once = session_config session
  /\ (status (committed w) = working \/ status (committed w) = planning ->
      handleLoadSession E session false w = (tt, w)).
Proof.
  simpl. rewrite !handleLoadSession_confirmed. simpl.
  repeat split.
  intros Hactive. unfold handleLoadSession.
  destruct Hactive as [-> | ->]; reflexivity.
Qed.

(** X24. Editing the prompt of a role sets that role's entry and no
    other, so a complete map stays complete; resetting restores the
    defaults, which are complete. *)
Theorem X24_prompt_edits (role : AgentRole) (prompt : string) (w : World) :
  let s := committed w in
  let s' := committed (snd (updatePrompt role prompt w)) in
  prompt_of (agentPrompts s') role = Some prompt
  /\ (forall r, r <> role -> prompt_of (agentPrompts s') r = prompt_of (agentPrompts s) r)
  /\ (total_prompts (agentPrompts s) -> total_prompts (agentPrompts s'))
  /\ agentPrompts (committed (snd (resetPrompts w))) = DEFAULT_AGENT_PROMPTS
  /\ total_prompts (agentPrompts (committed (snd (resetPrompts w))))
  /\ set_agentPrompts (agentPrompts s) s' = s.
Proof.
  intros s s'. subst s s'. unfold updatePrompt, resetPrompts, setState, prompt_of. simpl.
  assert (Hinj : forall r1 r2, role_name r1 = role_name r2 -> r1 = r2)
    by (intros [] []; vm_compute; congruence).
  split; [apply lookup_insert_eq|]. split; [|split; [|split; [|split]]].
  - intros r Hr. apply lookup_insert_ne. intros Heq. apply Hr. symmetry. now apply Hinj.
  - intros Htot r. unfold prompt_of. destruct (decide (r = role)) as [->|Hr].
    + rewrite lookup_insert_eq. eexists. reflexivity.
    + rewrite lookup_insert_ne; [apply Htot|].
      intros Heq. apply Hr. symmetry. now apply Hinj.
  - reflexivity.
  - apply DEFAULT_AGENT_PROMPTS_total.
  - destruct (committed w). reflexivity.
Qed.

Lemma trimStart_blank (q : string) : Js.trimStart q = EmptyString <-> blank q.
Proof.
  unfold blank. induction q as [|c q IH]; simpl.
  - split; [constructor|reflexivity].
  - destruct (Js.is_space c) eqn:Hc.
    + rewrite IH. split; [now constructor|]. intros H. now inversion H.
    + split; [discriminate|]. intros H. inversion H; congruence.
Qed.

Lemma trim_blank (q : string) : Js.truthy (Js.trim q) = false <-> blank q.
Proof.
  rewrite <- trimStart_blank. unfold Js.trim.
  pose proof (trimStart_head q) as Hh.
  destruct (Js.trimStart q) as [|c t]; [split; reflexivity|].
  destruct (trimEnd_head c t Hh) as [r ->]. split; discriminate.
Qed.

(** X25. For an objective written in ASCII: starting does nothing
    exactly when the objective is empty or made of white space only.
    With any other objective a start, like a confirmed restart, begins
    a clean mission in [planning]: no task, no log, index 0, no token
    used, no output, a window that starts now; only the prompts are
    carried over.  A declined restart changes nothing. *)
Theorem X25_start_and_restart (w : World) :
  ascii_only (query w) ->
  let now := clock E (dateReads w) in
  let started := committed (snd (handleStart E w)) in
  (blank (query w) -> handleStart E w = (tt, w))
  /\ (~ blank (query w) ->
      status started = planning
      /\ tasks started = [] /\ logs started = []
      /\ currentTaskIndex started = 0%nat
      /\ tokenUsage started = 0
      /\ finalOutput started = None
      /\ windowStartTime started = now
      /\ agentPrompts started = agentPrompts (committed w)
      /\ handleRestart E true w = handleStart E w)
  /\ committed (snd (handleRestart E true w))
     = fresh_mission E now (agentPrompts (committed w))
  /\ handleRestart E false w = (tt, w).
Proof.
  intros _.
  unfold handleStart, handleRestart, bind, Date_now, setState, with_committed.
  split; [|split; [|split]].
  - intros Hb. apply trim_blank in Hb. rewrite Hb. reflexivity.
  - intros Hb. destruct (Js.truthy (Js.trim (query w))) eqn:Ht.
    + simpl. repeat split.
    + exfalso. apply Hb, trim_blank, Ht.
  - reflexivity.
  - reflexivity.
Qed.

(** X26. The offer to resume an interrupted mission, made when the page
    loads: a stored mission that was idle or completed is not offered,
    a declined offer changes nothing, and an accepted one does exactly
    what loading that session from the history does, so the mission
    comes back paused. *)
Theorem X26_resume_offer (saved : SavedSession) (w : World) :
  let st := ld_status (session_state saved) in
  (st = Some idle \/ st = Some completed -> forall confirmed,
     resumeAutosave E saved confirmed w = (tt, w))
  /\ resumeAutosave E saved false w = (tt, w)
  /\ (st <> Some idle -> st <> Some completed ->
      resumeAutosave E saved true w = handleLoadSession E saved true w
      /\ status (committed (snd (resumeAutosave E saved true w))) = paused).
Proof.
  simpl. unfold resumeAutosave. split; [|split].
  - intros [-> | ->] confirmed; reflexivity.
  - destruct (bool_decide _ && bool_decide _); reflexivity.
  - intros Hidle Hdone. rewrite handleLoadSession_confirmed.
    rewrite !bool_decide_eq_true_2 by assumption. split; reflexivity.
Qed.

End History.

(** ** Restarting *)

Section Restarting.

Variable E : Env.



End Restarting.


(** ** The statements above at concrete missions *)

(** The first key is blocked and the second one answers: the third is
    not tried. *)
Lemma X3_witness :
  failover_loop Scenario.remote_first_key_blocked Scenario.some_params
    ["key-A"; "key-B"; "key-C"] None
  = (Return (Scenario.ok_response "fine" 10), ["key-A"; "key-B"]).
Proof.
  apply (X3_first_success_wins Scenario.remote_first_key_blocked Scenario.some_params
           ["key-A"] ["key-C"] "key-B" (Scenario.ok_response "fine" 10) None).
  - repeat constructor. eexists. split; vm_compute; reflexivity.
  - vm_compute. reflexivity.
Defined.

(** The first key is blocked and the second one is refused with a 400:
    the third is not tried. *)
Lemma X4_witness :
  failover_loop Cases.remote_blocked_then_refused Scenario.some_params
    ["key-A"; "key-B"; "key-C"] None
  = (Throw Scenario.bad_request, ["key-A"; "key-B"]).
Proof.
  apply (X4_fatal_error_ends_call Cases.remote_blocked_then_refused Scenario.some_params
           ["key-A"] ["key-C"] "key-B" Scenario.bad_request None).
  - repeat constructor. eexists. split; vm_compute; reflexivity.
  - vm_compute. reflexivity.
  - right. split; [vm_compute; reflexivity|]. left. vm_compute. reflexivity.
Defined.

Lemma X5_witness :
  let tried := snd (generateContentWithFallback_trace Scenario.keys
                      Scenario.remote_blocked Scenario.some_params CODER) in
  NoDup tried
  /\ (forall k, k ∈ tried -> k ∈ keyPool Scenario.keys)
  /\ (length tried <= length (keyPool Scenario.keys))%nat.
Proof.
  apply (X5_no_key_tried_twice Scenario.keys Scenario.remote_blocked
           Scenario.some_params CODER).
  vm_compute. reflexivity.
Defined.

(** 850 of 1000 tokens used inside the window: the check denies. *)
Lemma X6_witness :
  let E := Scenario.E_blocked in
  let w := Scenario.w_over_budget in
  fst (checkRateLimit E w) = false
  /\ tasks (committed (snd (checkRateLimit E w))) = tasks (committed w)
  /\ logs (committed (snd (checkRateLimit E w))) = logs (committed w).
Proof.
  destruct (X6_rate_limit_decision Scenario.E_blocked Scenario.w_over_budget)
    as (H1 & _ & _ & H4 & H5 & _).
  - split; reflexivity.
  - vm_compute. discriminate.
  - split; [|split; assumption].
    destruct (fst (checkRateLimit Scenario.E_blocked Scenario.w_over_budget)) eqn:Hd;
      [|reflexivity].
    destruct H1 as [H1 _]. destruct (H1 eq_refl) as [Hel | Hq].
    + vm_compute in Hel. discriminate Hel.
    + vm_compute in Hq. discriminate Hq.
Defined.


(** Paused at 5000 with a delay of two minutes: the tick at 6000 changes
    nothing. *)
Lemma X8_witness :
  let E := Scenario.E_agents_only in
  let w := Cases.w_auto_resume in
  status (committed (react E Pause w)) = auto_paused
  /\ nextAllowedQueryTime (committed (react E Pause w)) = 125000
  /\ committed (run E [Pause; Tick] w) = committed (react E Pause w).
Proof.
  destruct (X8_auto_resume Scenario.E_agents_only Cases.w_auto_resume)
    as (H1 & H2 & _).
  - reflexivity.
  - reflexivity.
  - split; [rewrite H1; reflexivity|]. split; [rewrite H1; reflexivity|].
    apply H2. reflexivity.
Defined.

Lemma X9_witness :
  let E := Scenario.E_agents_only in
  let w := Cases.w_small_budget in
  committed (run E [Pause; Resume] w) = committed w
  /\ committed (run E [StopTimer; Resume] w) = committed w.
Proof.
  apply (X9_pause_resume_round_trip Scenario.E_agents_only Cases.w_small_budget).
  - reflexivity.
  - vm_compute. discriminate.
  - left. split; [reflexivity|discriminate].
Defined.

(** The cooldown of a mission at 850 of 1000 tokens ends at 60000; the
    step that follows the resumption is denied again. *)
Lemma X10_witness :
  let E := Scenario.E_blocked in
  let w := Scenario.w_cooldown_over in
  status (committed (react E Tick w)) = working
  /\ tokenUsage (committed (react E Tick w)) = 850
  /\ windowStartTime (committed (react E Tick w)) = 61000
  /\ status (committed (run E [Tick; Step] w)) = cooldown
  /\ tokenUsage (committed (run E [Tick; Step] w)) = 850
  /\ nextAllowedQueryTime (committed (run E [Tick; Step] w)) = 61000 + 60000.
Proof.
  apply (X10_cooldown_is_re_entered Scenario.E_blocked Scenario.w_cooldown_over).
  - reflexivity.
  - reflexivity.
  - split; reflexivity.
  - vm_compute. discriminate.
  - vm_compute. discriminate.
  - vm_compute. discriminate.
Defined.

Lemma X11_witness :
  exists entries,
    logs (committed (run Scenario.E_agents_only Cases.schedule Scenario.w_two_tasks))
    = (logs (committed Scenario.w_two_tasks) ++ entries)%list.
Proof.
  apply (X11_log_is_append_only Scenario.E_agents_only Cases.schedule Scenario.w_two_tasks).
  - reflexivity.
  - repeat constructor.
Defined.

Lemma X12_witness :
  let s' := committed (run Scenario.E_blocked Cases.schedule Scenario.w_two_tasks) in
  status s' <> error /\ status s' <> idle.
Proof.
  destruct (X12_error_and_idle_are_never_entered Scenario.E_blocked Cases.schedule
              Scenario.w_two_tasks) as [H1 H2].
  - reflexivity.
  - split; [apply H1|apply H2]; discriminate.
Defined.

(** Two steps that overlap on the last task, then the step that
    compiles the final output. *)
Lemma X13_witness :
  let E := Scenario.E_agents_only in
  let w := Cases.w_window_over in
  let history := [begin_step; begin_step; settle Cases.first_call;
                  settle Cases.second_call; act Step] in
  status (committed (play E history w)) = completed
  /\ is_Some (finalOutput (committed (play E history w))).
Proof.
  assert (Hc : status (committed (play Scenario.E_agents_only
                                   [begin_step; begin_step; settle Cases.first_call;
                                    settle Cases.second_call; act Step]
                                   Cases.w_window_over)) = completed)
    by (vm_compute; reflexivity).
  split; [exact Hc|].
  apply (X13_completed_has_output Scenario.E_agents_only
           [begin_step; begin_step; settle Cases.first_call; settle Cases.second_call;
            act Step] Cases.w_window_over).
  - intros Hw. discriminate Hw.
  - exact Hc.
Defined.

Lemma X14_witness :
  results_present
    (committed (run Scenario.E_agents_only Cases.schedule Scenario.w_three_tasks)).
Proof.
  apply (X14_completed_tasks_have_results Scenario.E_agents_only Cases.schedule
           Scenario.w_three_tasks).
  - reflexivity.
  - repeat constructor; try (intros Hc; discriminate Hc).
    intros _. exists "findings". split; reflexivity.
  - repeat constructor.
Defined.

Lemma X15_witness :
  agentPrompts (committed (run Scenario.E_agents_only (Restart :: Cases.schedule)
                             Scenario.w_two_tasks))
  = DEFAULT_AGENT_PROMPTS.
Proof.
  apply (X15_prompts_survive Scenario.E_agents_only (Restart :: Cases.schedule)
           Scenario.w_two_tasks).
  - reflexivity.
  - repeat constructor.
Defined.

(** The planner answers with a plan of two tasks. *)
Lemma X16_witness :
  let E := Cases.E_full in
  let w := Cases.w_planning in
  let s' := committed (snd (processNextStep_traced E w)) in
  status s' = working
  /\ currentTaskIndex s' = 0%nat
  /\ map raw_of_task (tasks s') = Cases.plan_items
  /\ Forall fresh_pending (tasks s').
Proof.
  destruct (X16_planning_installs_plan Cases.E_full Cases.w_planning
              (Scenario.ok_response "plan" 50) Cases.plan_items)
    as (_ & H2 & H3 & H4 & H5 & _).
  - reflexivity.
  - reflexivity.
  - vm_compute. reflexivity.
  - vm_compute. reflexivity.
  - vm_compute. reflexivity.
  - repeat split; assumption.
Defined.

(** The only task is executed and nothing else is called. *)
Lemma X17_witness :
  let E := Scenario.E_agents_only in
  let w := Scenario.w_one_task in
  let s' := committed (snd (processNextStep_traced E w)) in
  fst (processNextStep_traced E w) = None
  /\ status s' = working
  /\ currentTaskIndex s' = length (tasks s')
  /\ map log_type (drop (length (logs (committed w))) (logs s'))
     = [log_action; log_info; log_info; log_result].
Proof.
  destruct (X17_last_task_needs_no_replan Scenario.E_agents_only Scenario.w_one_task
              Scenario.task0
              (mkAgentResult "findings" [] 120
                 (agent_prompt RESEARCHER Scenario.task0 "" DEFAULT_AGENT_PROMPTS)))
    as (H1 & H2 & _ & _ & H5 & _ & H7).
  - reflexivity.
  - reflexivity.
  - reflexivity.
  - vm_compute. reflexivity.
  - reflexivity.
  - vm_compute. reflexivity.
  - repeat split; assumption.
Defined.

(** The first of two tasks is executed and the re-planner answers with
    a plan of two tasks: the list grows to three. *)
Lemma X18_witness :
  let E := Cases.E_full in
  let w := Scenario.w_two_tasks in
  let s' := committed (snd (processNextStep_traced E w)) in
  status s' = working
  /\ currentTaskIndex s' = 1%nat
  /\ map raw_of_task (drop 1 (tasks s')) = Cases.plan_items
  /\ length (tasks s') = 3%nat.
Proof.
  destruct (X18_replan_replaces_remaining Cases.E_full Scenario.w_two_tasks
              Scenario.task0
              (mkAgentResult "findings" [] 120
                 (agent_prompt RESEARCHER Scenario.task0 "" DEFAULT_AGENT_PROMPTS))
              (Scenario.ok_response "plan" 30) Cases.plan_items)
    as (_ & H2 & H3 & _ & H5 & _ & H7 & _).
  - reflexivity.
  - reflexivity.
  - simpl. lia.
  - vm_compute. reflexivity.
  - reflexivity.
  - vm_compute. reflexivity.
  - vm_compute. reflexivity.
  - vm_compute. reflexivity.
  - repeat split; assumption.
Defined.

(** The planner answers with an empty plan and the synthesis follows. *)
Lemma X19_witness :
  let E := Cases.E_fine in
  let w1 := react E Step Cases.w_planning in
  let s2 := committed (react E Step w1) in
  status (committed w1) = working
  /\ tasks (committed w1) = []
  /\ status s2 = completed
  /\ is_Some (finalOutput s2).
Proof.
  destruct (X19_empty_plan_completes Cases.E_fine Cases.w_planning
              (Scenario.ok_response "fine" 10))
    as (H1 & H2 & H3 & _ & H5 & _).
  - reflexivity.
  - reflexivity.
  - vm_compute. reflexivity.
  - vm_compute. reflexivity.
  - reflexivity.
  - vm_compute. reflexivity.
  - vm_compute. discriminate.
  - repeat split; assumption.
Defined.

(** The objective of the scenarios is not blank: a start plans. *)
Lemma X25_witness :
  let E := Scenario.E_agents_only in
  let w := Cases.w_paused in
  let started := committed (snd (handleStart E w)) in
  status started = planning
  /\ tasks started = []
  /\ tokenUsage started = 0
  /\ agentPrompts started = agentPrompts (committed w).
Proof.
  destruct (X25_start_and_restart Scenario.E_agents_only Cases.w_paused)
    as (_ & H2 & _).
  - repeat constructor.
  - destruct H2 as (H3 & H4 & _ & _ & H7 & _ & _ & H10 & _).
    + intros Hb. inversion Hb as [|c l Hc _]. discriminate Hc.
    + repeat split; assumption.
Defined.
